(* Shallow embedding of the document-loading layer of common.js
   (src/unnamed/part_000): the readiness barrier, the property and path
   watchers, the minified-SDK fast path, the document-load orchestrator
   and the local-name helper. *)

From Stdlib Require Import Bool List String Ascii ZArith Lia.
Import ListNotations.
Open Scope string_scope.
Open Scope list_scope.

(* ===================================================================== *)
(** * JavaScript values, as far as the watchers inspect them *)
(* ===================================================================== *)

(** A JS value seen through the tests the code applies to it:
    [=== undefined], [=== null] and truthiness.  [JVal t id] is any other
    value; [t] is its truthiness (false for [false], [0], [""], [NaN]) and
    [id] tells values apart. *)
Inductive jsval :=
| JUndef
| JNull
| JVal (truthy : bool) (id : nat).

Definition truthy (v : jsval) : bool :=
  match v with
  | JVal t _ => t
  | _ => false
  end.

(** [v !== undefined] *)
Definition is_defined (v : jsval) : bool :=
  match v with
  | JUndef => false
  | _ => true
  end.

(* ===================================================================== *)
(** * Readiness barrier: [overrideStatus], [checkAllReady], [_commonJsReady] *)
(* ===================================================================== *)

Record overrideStatus := mkStatus {
  baseEditorsApi : bool;
  fonts : bool;
  sdk : bool
}.

(** State of the promise [_commonJsReady]. *)
Inductive promise_state := PPending | PFulfilled.

Record barrier := mkBarrier {
  bstatus : overrideStatus;
  bready : promise_state;
  blog : list string
}.

Definition barrier_init : barrier :=
  mkBarrier (mkStatus false false false) PPending [].

(** [_resolveReady()]: resolving a settled promise has no effect. *)
Definition _resolveReady (p : promise_state) : promise_state :=
  match p with
  | PPending => PFulfilled
  | PFulfilled => PFulfilled
  end.

Definition all_ready (st : overrideStatus) : bool :=
  baseEditorsApi st && fonts st && sdk st.

Definition msg_all_ready : string :=
  "[common.js] All SDK overrides complete - ready for document loading".

Definition checkAllReady (b : barrier) : barrier :=
  if all_ready (bstatus b)
  then mkBarrier (bstatus b) (_resolveReady (bready b)) (blog b ++ [msg_all_ready])
  else b.

(** The three flags of [overrideStatus]. *)
Inductive flag := FBaseEditorsApi | FFonts | FSdk.

Definition set_flag (f : flag) (st : overrideStatus) : overrideStatus :=
  match f with
  | FBaseEditorsApi => mkStatus true (fonts st) (sdk st)
  | FFonts => mkStatus (baseEditorsApi st) true (sdk st)
  | FSdk => mkStatus (baseEditorsApi st) (fonts st) true
  end.

(** The tail of each override routine: [overrideStatus.X = true;
    console.log(...); checkAllReady();]. *)
Definition markReady (f : flag) (b : barrier) : barrier :=
  checkAllReady (mkBarrier (set_flag f (bstatus b)) (bready b) (blog b)).

(** The degrade path shared by the fast path and the path watchers:
    every flag set, then [checkAllReady()]. *)
Definition forceComplete (msg : string) (b : barrier) : barrier :=
  checkAllReady (mkBarrier (mkStatus true true true) (bready b) (blog b ++ [msg])).

Definition run_barrier (b : barrier) (evs : list flag) : barrier :=
  fold_left (fun b f => markReady f b) evs b.

(** Did this call move [_commonJsReady] from pending to fulfilled? *)
Definition fired (before after : barrier) : bool :=
  match bready before, bready after with
  | PPending, PFulfilled => true
  | _, _ => false
  end.

(** For each call of the sequence, whether it fired the signal. *)
Fixpoint fires (b : barrier) (evs : list flag) : list bool :=
  match evs with
  | [] => []
  | f :: r => fired b (markReady f b) :: fires (markReady f b) r
  end.

Definition flag_eqb (f g : flag) : bool :=
  match f, g with
  | FBaseEditorsApi, FBaseEditorsApi | FFonts, FFonts | FSdk, FSdk => true
  | _, _ => false
  end.

(** The three flags all occur in a sequence of calls. *)
Definition all_set (evs : list flag) : bool :=
  existsb (flag_eqb FBaseEditorsApi) evs
  && existsb (flag_eqb FFonts) evs
  && existsb (flag_eqb FSdk) evs.

Fixpoint count_true (l : list bool) : nat :=
  match l with
  | [] => 0
  | true :: r => S (count_true r)
  | false :: r => count_true r
  end.

(* ===================================================================== *)
(** * Effects of the orchestrator and of its helpers *)
(* ===================================================================== *)

Inductive errId := ConvertationOpenError.
Inductive errLevel := Critical.

(** Arguments of [editor.sendEvent(name, ...)]. *)
Inductive arg :=
| AErr (e : errId)
| ALevel (l : errLevel)
| ABool (b : bool)
| AStr (s : string).

Inductive effect :=
| LogInfo (s : string)
| LogError (s : string)
| SetDocumentUrl (u : string)          (* AscCommon.g_oDocumentUrls.documentUrl = u *)
| SetOpenedAt                          (* editor.setOpenedAt(Date.now()) *)
| SetUserId                            (* g_oIdCounter.m_sUserId = CheckUserId() *)
| SendEvent (name : string) (args : list arg)
| GetOpenedFile (key : string)         (* AscDesktopEditor.GetOpenedFile(_data) *)
| WrapBuffer                           (* new Uint8Array(bufferArray) *)
| DecodeBase64 (len : Z)               (* getBinaryArray(_data, _len) *)
| CheckStreamSignature
| OpenDocument (url : string)          (* editor.openDocument(file), file.url = url *)
| SetFastCollaborative (b : bool)
| AfterOpen                            (* window.DesktopAfterOpen(editor) *)
| SetDocumentTitle (s : string)        (* _api.documentTitle = s *)
| HostSetDocumentName (s : string)     (* AscDesktopEditor.SetDocumentName(s) *)
| Schedule (delay : Z) (e : effect).   (* setTimeout(..., delay) *)

(* ===================================================================== *)
(** * Base-URL resolution (DesktopOfflineAppDocumentEndLoad, lines 603-620) *)
(* ===================================================================== *)

Definition is_alpha (c : ascii) : bool :=
  let n := nat_of_ascii c in
  (Nat.leb 65 n && Nat.leb n 90) || (Nat.leb 97 n && Nat.leb n 122).

Definition is_digit (c : ascii) : bool :=
  let n := nat_of_ascii c in Nat.leb 48 n && Nat.leb n 57.

(** [[a-zA-Z0-9+.-]] *)
Definition is_scheme_char (c : ascii) : bool :=
  is_alpha c || is_digit c
  || Ascii.eqb c "+"%char || Ascii.eqb c "."%char || Ascii.eqb c "-"%char.

(** Matches [[a-zA-Z0-9+.-]*:] at the start of the string. *)
Fixpoint scheme_tail (s : string) : bool :=
  match s with
  | EmptyString => false
  | String c r =>
      if Ascii.eqb c ":"%char then true
      else if is_scheme_char c then scheme_tail r else false
  end.

(** [/^[a-zA-Z][a-zA-Z0-9+.-]*:/.test(s)] *)
Definition hasScheme (s : string) : bool :=
  match s with
  | EmptyString => false
  | String c r => is_alpha c && scheme_tail r
  end.

(** [s.indexOf(t)], as an option: [None] for [-1]. *)
Definition indexOf (t s : string) : option nat := String.index 0 t s.

(** The [else] branch: no override base URL. *)
Definition normalize_local_url (_url : string) : string :=
  let documentUrl := _url in
  if hasScheme documentUrl then documentUrl
  else
    let documentUrl :=
      match indexOf "/" documentUrl with
      | Some 0 => documentUrl
      | _ => String.append "/" documentUrl
      end in
    String.append "file://" documentUrl.

(** The [if (overrideDocumentUrl)] branch: drop one trailing slash. *)
Definition strip_trailing_slash (o : string) : string :=
  match String.get (String.length o - 1) o with
  | Some c => if Ascii.eqb c "/"%char
              then String.substring 0 (String.length o - 1) o else o
  | None => o
  end.

(** [window._ONLYOFFICE_DOC_BASE_URL] is [None] when undefined; the empty
    string is falsy and takes the same branch. *)
Definition resolve_base_url (override : option string) (_url : string) : string :=
  match override with
  | Some o => if String.eqb o "" then normalize_local_url _url
              else strip_trailing_slash o
  | None => normalize_local_url _url
  end.

(* ===================================================================== *)
(** * The Resolving step sequence (the [.then] continuation, 594-658) *)
(* ===================================================================== *)

Record host := mkHost {
  editor_present : bool;                     (* Asc.editor || window.editor *)
  doc_base_url : option string;              (* window._ONLYOFFICE_DOC_BASE_URL *)
  opened_file : string -> option nat;        (* GetOpenedFile: buffer or null *)
  password_empty : bool                      (* "" == editor.currentPassword *)
}.

Definition msg_executing : string :=
  "[common.js] DesktopOfflineAppDocumentEndLoad executing (SDK ready)".
Definition msg_no_editor : string := "[common.js] No editor instance found!".

Definition open_error : effect :=
  SendEvent "asc_onError" [AErr ConvertationOpenError; ALevel Critical].

(** From [editor.openDocument(file)] to the end of the continuation. *)
Definition open_tail (h : host) (effectiveUrl : string) : list effect :=
  [CheckStreamSignature; OpenDocument effectiveUrl; SetFastCollaborative false;
   Schedule 500 (LogInfo "DesktopOfflineUpdateLocalName"); AfterOpen;
   SendEvent "asc_onDocumentPassword" [ABool (negb (password_empty h))]].

Definition resolving (h : host) (_url _data : string) (_len : Z) : list effect :=
  LogInfo msg_executing ::
  if negb (editor_present h) then [LogError msg_no_editor]
  else
    let effectiveUrl := resolve_base_url (doc_base_url h) _url in
    [SetDocumentUrl effectiveUrl; SetOpenedAt; SetUserId] ++
    if String.eqb _data "" then [open_error]
    else
      match indexOf "binary_content://" _data with
      | Some 0 =>
          GetOpenedFile _data ::
          match opened_file h _data with
          | Some _ => WrapBuffer :: open_tail h effectiveUrl
          | None => [open_error]
          end
      | _ => DecodeBase64 _len :: open_tail h effectiveUrl
      end.

(** [asc_onError] events among the effects. *)
Definition is_on_error (e : effect) : bool :=
  match e with
  | SendEvent name _ => String.eqb name "asc_onError"
  | _ => false
  end.

(** Steps that decode the payload or open the document. *)
Definition decodes_or_opens (e : effect) : bool :=
  match e with
  | WrapBuffer | DecodeBase64 _ | CheckStreamSignature | OpenDocument _ => true
  | _ => false
  end.

(* ===================================================================== *)
(** * The entry point and its [_documentLoadStarted] guard (584-591) *)
(* ===================================================================== *)

Record call_args := mkArgs { a_url : string; a_data : string; a_len : Z }.

(** Page state seen by the entry point: the guard, whether
    [_commonJsReady] is fulfilled, continuations waiting on it, the
    microtask queue and the continuations that have run. *)
Record orch := mkOrch {
  _documentLoadStarted : bool;
  oready : bool;
  owaiting : list call_args;
  omicro : list call_args;
  oran : list call_args;
  olog : list string
}.

Definition orch_init : orch := mkOrch false false [] [] [] [].

Definition msg_duplicate : string :=
  "[common.js] DesktopOfflineAppDocumentEndLoad already called, ignoring duplicate".

Inductive page_event :=
| ECall (a : call_args)   (* window.DesktopOfflineAppDocumentEndLoad(_url, _data, _len) *)
| EReady                  (* _resolveReady() *)
| EDrain.                 (* the microtask queue runs *)

Definition DesktopOfflineAppDocumentEndLoad (a : call_args) (s : orch) : orch :=
  if _documentLoadStarted s then
    mkOrch (_documentLoadStarted s) (oready s) (owaiting s) (omicro s) (oran s)
           (olog s ++ [msg_duplicate])
  else
    (* _documentLoadStarted = true; window._commonJsReady.then(...) *)
    if oready s
    then mkOrch true (oready s) (owaiting s) (omicro s ++ [a]) (oran s) (olog s)
    else mkOrch true (oready s) (owaiting s ++ [a]) (omicro s) (oran s) (olog s).

Definition page_step (s : orch) (e : page_event) : orch :=
  match e with
  | ECall a => DesktopOfflineAppDocumentEndLoad a s
  | EReady =>
      if oready s then s
      else mkOrch (_documentLoadStarted s) true [] (omicro s ++ owaiting s) (oran s) (olog s)
  | EDrain =>
      mkOrch (_documentLoadStarted s) (oready s) (owaiting s) [] (oran s ++ omicro s) (olog s)
  end.

Definition run_page (s : orch) (evs : list page_event) : orch :=
  fold_left page_step evs s.

(* ===================================================================== *)
(** * Module initialisation: the fast-path detector (187-205, 576-578) *)
(* ===================================================================== *)

(** What the detector reads at script load: [window.AscCommon] and, when
    that is truthy, [window.AscCommon.baseEditorsApi]. *)
Record sdk_env := mkEnv {
  win_AscCommon : jsval;
  AscCommon_baseEditorsApi : jsval
}.

(** Truthiness of [window.AscCommon && !window.AscCommon.baseEditorsApi]. *)
Definition isMinifiedSdk (e : sdk_env) : bool :=
  truthy (win_AscCommon e) && negb (truthy (AscCommon_baseEditorsApi e)).

Definition msg_minified : string :=
  "[common.js] Minified SDK detected - skipping unminified overrides".

(** The three [!isMinifiedSdk && waitForPath(path, ...)] statements. *)
Definition override_paths : list string :=
  ["AscCommon.baseEditorsApi"; "AscFonts.CFontFileLoader"; "AscCommon.DocumentUrls"].

(** Synchronous part of the first IIFE after the promise is created: the
    barrier after the [if (isMinifiedSdk)] block, and the paths for which
    [waitForPath] is then called (the watchers themselves are modelled by
    [PathWatcher] below). *)
Definition fast_path_detect (e : sdk_env) : barrier * list string :=
  if isMinifiedSdk e
  then (checkAllReady (mkBarrier (mkStatus true true true) PPending [msg_minified]), [])
  else (barrier_init, override_paths).

(** Values the script leaves in global bindings. *)
Inductive gval := GUndefined | GFunction | GPromise | GOther.

(** The [window["..."] = function ...] assignments inside
    [if (!_isMinifiedSdk) { ... }]. *)
Definition layer_entry_points : list string :=
  ["DesktopOfflineAppDocumentEndLoad"; "NativeCorrectImageUrlOnCopy";
   "NativeCorrectImageUrlOnPaste"; "UpdateInstallPlugins";
   "DesktopOfflineAppDocumentSignatures"; "DesktopSaveQuestionReturn";
   "OnNativeReturnCallback"; "asc_IsVisibleSign"; "asc_LocalRequestSign";
   "DesktopAfterOpen"].

(** The value [window.AscCommon && !window.AscCommon.baseEditorsApi]
    stores in [_isMinifiedSdk]: [window.AscCommon] itself when that is
    falsy, a boolean otherwise. *)
Definition isMinifiedSdk_value (e : sdk_env) : gval :=
  match win_AscCommon e with
  | JUndef => GUndefined
  | _ => GOther
  end.

(** Whether the block [if (!_isMinifiedSdk) { ... }] throws, ending the
    script.  [setup_throws] tells whether the immediate [setupEncryption()]
    call (line 945) throws: [_proto] is truthy but the write
    [_proto.prototype["pluginMethod_OnEncryption"] = ...] fails.  Line
    951, [AscCommon.getBinaryArray = getBinaryArray], throws when the
    global [AscCommon] is falsy: a ReferenceError when it does not exist,
    a TypeError for [undefined] or [null] and, the script being strict,
    for any other primitive. *)
Definition script_throws (e : sdk_env) (setup_throws : bool) : bool :=
  negb (isMinifiedSdk e) && (setup_throws || negb (truthy (win_AscCommon e))).

(** Global writes of the whole script, in order, up to an uncaught
    exception.  Top-level [var]s are hoisted (so [_documentLoadStarted]
    exists, undefined, in both modes); the script is strict, so the
    function declarations inside the block ([DesktopOfflineUpdateLocalName],
    [getBinaryArray]) are block-scoped and never become globals.  The
    entry points are all written before either throwing statement.  Keys
    are access paths from [window]. *)
Definition script_writes (e : sdk_env) (setup_throws : bool) : list (string * gval) :=
  [("_isMinifiedSdk", GUndefined); ("_documentLoadStarted", GUndefined);
   ("_commonJsReady", GPromise);
   ("_isMinifiedSdk", isMinifiedSdk_value e)]
  ++ (if isMinifiedSdk e then []
      else ("_documentLoadStarted", GOther)
           :: map (fun n => (n, GFunction)) layer_entry_points
           ++ (if script_throws e setup_throws then []
               else [("AscCommon.getBinaryArray", GFunction)])).

(** Value of a global after the writes: the last write wins. *)
Definition global_after (ws : list (string * gval)) (name : string) : option gval :=
  fold_left (fun acc w => if String.eqb (fst w) name then Some (snd w) else acc) ws None.

(* ===================================================================== *)
(** * DesktopOfflineUpdateLocalName (664-688) *)
(* ===================================================================== *)

Fixpoint lastIndexOf_aux (c : ascii) (s : string) (i acc : Z) : Z :=
  match s with
  | EmptyString => acc
  | String d r => lastIndexOf_aux c r (i + 1)%Z (if Ascii.eqb c d then i else acc)
  end.

(** [s.lastIndexOf(c)] for a one-character needle; [-1] when absent. *)
Definition lastIndexOf (c : ascii) (s : string) : Z := lastIndexOf_aux c s 0%Z (-1)%Z.

(** [s.substring(k)] for [0 <= k]. *)
Definition substring_from (k : Z) (s : string) : string :=
  String.substring (Z.to_nat k) (String.length s - Z.to_nat k) s.

Definition backslash : ascii := ascii_of_nat 92.
Definition slash : ascii := "/"%char.

(** Title derivation: returns the name and the effects on [_api] and the host. *)
Definition DesktopOfflineUpdateLocalName (source_path : string) : string * list effect :=
  let _name := source_path in
  let _ind1 := lastIndexOf backslash _name in
  let _ind2 := lastIndexOf slash _name in
  let _ind1 := if Z.eqb _ind1 (-1) then 1000000%Z else _ind1 in
  let _ind2 := if Z.eqb _ind2 (-1) then 1000000%Z else _ind2 in
  let _ind := Z.min _ind1 _ind2 in
  let _name := if negb (Z.eqb _ind 1000000) then substring_from (_ind + 1)%Z _name else _name in
  (_name, [SetDocumentTitle _name;
           Schedule 100 (SendEvent "asc_onDocumentName" [AStr _name]);
           HostSetDocumentName _name]).

(** The title the spec describes: the substring after the last ['/'] or
    ['\'], or the whole path when it has neither. *)
Definition final_segment_spec (s : string) : string :=
  let i := Z.max (lastIndexOf backslash s) (lastIndexOf slash s) in
  if Z.eqb i (-1) then s else substring_from (i + 1)%Z s.

(* ===================================================================== *)
(** * The Path Watcher: [waitForPath] (140-185) *)
(* ===================================================================== *)

Fixpoint split_dot_aux (s cur : string) : list string :=
  match s with
  | EmptyString => [cur]
  | String c r =>
      if Ascii.eqb c "."%char then cur :: split_dot_aux r ""
      else split_dot_aux r (String.append cur (String c ""))
  end.

(** [pathStr.split('.')] *)
Definition split_dot (s : string) : list string := split_dot_aux s "".

(** [parts.join('.')] *)
Fixpoint join_dot (l : list string) : string :=
  match l with
  | [] => ""
  | [x] => x
  | x :: r => String.append x (String.append "." (join_dot r))
  end.

(** [maxWait || 10000]: no caller passes [maxWait]. *)
Definition default_maxWait : Z := 10000.
(** Period of the [setInterval] in [waitForPath]. *)
Definition path_poll_period : Z := 20.

Module PathWatcher.

Local Open Scope Z_scope.

Inductive phase :=
| Polling (idx : nat) (obj : jsval) (prop : string) (rest : list string)
    (* interval armed, waiting for [obj[prop]]; [rest] are the parts after it *)
| Resolved (t : Z) (v : jsval)      (* [callback(v)] called at time [t] *)
| TimedOut (t : Z)                  (* timeout branch ran at time [t] *)
| Failed (t : Z) (idx : nat).       (* [!obj] at part [idx], at time [t] *)

Record state := mkState {
  ph : phase;
  timer : option Z;      (* due time of the armed interval's next tick *)
  bar : barrier          (* the shared readiness barrier; its log is the console *)
}.

Section Watch.

(** [get t o p]: value of [o[p]] at time [t]; only used on truthy [o]. *)
Variable get : Z -> jsval -> string -> jsval.
Variable window : jsval.
Variable pathStr : string.
Variable startTime : Z.
Variable maxWait : Z.

Definition parts : list string := split_dot pathStr.

Definition msg_starting : string :=
  String.append "[common.js] waitForPath starting: " pathStr.
Definition msg_timeout : string :=
  String.append "[common.js] Timeout waiting for: "
    (String.append pathStr " - resolving anyway to prevent hang").
Definition msg_failed (idx : nat) : string :=
  String.append "[common.js] Path resolution failed at: " (join_dot (firstn idx parts)).

(** The inner [resolve(obj, idx)], run at time [t]; [rest] is
    [parts.slice(idx)]. *)
Fixpoint resolve (t : Z) (rest : list string) (idx : nat) (obj : jsval) (b : barrier)
  : state :=
  match rest with
  | [] => mkState (Resolved t obj) None b
  | prop :: rest' =>
      if truthy obj && is_defined (get t obj prop)
      then resolve t rest' (S idx) (get t obj prop) b
      else if truthy obj
      then mkState (Polling idx obj prop rest') (Some (t + path_poll_period)) b
      else mkState (Failed t idx) None (forceComplete (msg_failed idx) b)
  end.

(** [waitForPath(pathStr, callback)] called at [startTime]. *)
Definition waitForPath (b : barrier) : state :=
  resolve startTime parts 0 window
    (mkBarrier (bstatus b) (bready b) (blog b ++ [msg_starting])).

(** One firing of the armed interval. *)
Definition tick (s : state) : state :=
  match ph s, timer s with
  | Polling idx obj prop rest, Some tau =>
      if Z.ltb maxWait (tau - startTime)
      then (* clearInterval; console.error; all flags; checkAllReady *)
        mkState (TimedOut tau) None (forceComplete msg_timeout (bar s))
      else if is_defined (get tau obj prop)
      then (* clearInterval; resolve(obj[prop], idx + 1) *)
        resolve tau rest (S idx) (get tau obj prop) (bar s)
      else mkState (ph s) (Some (tau + path_poll_period)) (bar s)
  | _, _ => s
  end.

Fixpoint run (n : nat) (s : state) : state :=
  match n with
  | O => s
  | S n' => run n' (tick s)
  end.

End Watch.

End PathWatcher.

(* ===================================================================== *)
(** * The Property Watcher: [waitForProperty] (93-137) *)
(* ===================================================================== *)

(** Period of the [setInterval] in [waitForProperty]'s accessor fallback. *)
Definition prop_poll_period : Z := 10.

Module PropertyWatcher.

Local Open Scope Z_scope.

(** The own property [prop] of the target, as
    [Object.getOwnPropertyDescriptor(obj, prop)] sees it. *)
Inductive desc :=
| DAbsent
| DData (v : jsval) (writable configurable : bool)
| DAccessor (getter : Z -> jsval) (configurable : bool)
    (* get/set installed by another party; the getter's value over time *)
| DIntercept (mine : bool) (value : jsval).
    (* an accessor installed by [waitForProperty]: [get] returns [value];
       [mine] tells whether this watch installed it (its setter invokes
       this watch's callback) or an earlier one did *)

(** [prop] on the prototype chain of the target: the property of the
    first object on the chain that has [prop] as an own property. *)
Inductive inherited :=
| INone                                        (* no object on the chain has [prop] *)
| IData (v : jsval) (writable : bool)          (* an inherited data property *)
| IAccessor (getter : Z -> jsval) (has_setter : bool).
    (* an inherited get/set; the getter's value over time *)

Record jsobj := mkObj {
  slot : desc;
  extensible : bool;
  proto : inherited
}.

(** [obj[prop]] at time [t]: the own property, else the inherited one. *)
Definition read (t : Z) (o : jsobj) : jsval :=
  match slot o with
  | DAbsent =>
      match proto o with
      | INone => JUndef
      | IData v _ => v
      | IAccessor g _ => g t
      end
  | DData v _ _ => v
  | DAccessor g _ => g t
  | DIntercept _ v => v
  end.

(** [descriptor && (descriptor.get || descriptor.set)] *)
Definition has_accessor (o : jsobj) : bool :=
  match slot o with
  | DAccessor _ _ | DIntercept _ _ => true
  | _ => false
  end.

(** Whether [Object.defineProperty] may replace the own property by an
    accessor (ValidateAndApplyPropertyDescriptor); otherwise it throws a
    TypeError. *)
Definition can_define_accessor (o : jsobj) : bool :=
  match slot o with
  | DAbsent => extensible o
  | DData _ _ c => c
  | DAccessor _ c => c
  | DIntercept _ _ => true
  end.

Record state := mkState {
  target : jsobj;
  ptimer : option Z;        (* due time of the fallback interval's next tick *)
  calls : list jsval;       (* arguments of the callback invocations, in order *)
  threw : bool              (* Object.defineProperty threw a TypeError *)
}.

Definition msg_no_target : string :=
  "[common.js] waitForProperty: obj is undefined for prop:".

(** [waitForProperty(obj, prop, callback)] at time [t]; [None] is a falsy
    [obj].  Returns the console output and the watch state. *)
Definition waitForProperty (t : Z) (obj : option jsobj) : list string * option state :=
  match obj with
  | None => ([msg_no_target], None)
  | Some o =>
      ([], Some (if is_defined (read t o) then mkState o None [read t o] false
                 else if has_accessor o then mkState o (Some (t + prop_poll_period)) [] false
                 else if can_define_accessor o
                 then mkState (mkObj (DIntercept true JUndef) (extensible o) (proto o)) None [] false
                 else mkState o None [] true))
  end.

(** [obj[prop] = v] performed by other code (OrdinarySet): without an
    own property, an inherited accessor runs its own setter and an
    inherited read-only data property refuses the write; otherwise an own
    data property is created if the target is extensible. *)
Definition assign (v : jsval) (s : state) : state :=
  let o := target s in
  match slot o with
  | DAbsent =>
      let creates := match proto o with
                     | INone => true
                     | IData _ w => w
                     | IAccessor _ _ => false
                     end in
      if creates && extensible o
      then mkState (mkObj (DData v true true) true (proto o)) (ptimer s) (calls s) (threw s)
      else s
  | DData _ w c =>
      if w then mkState (mkObj (DData v w c) (extensible o) (proto o)) (ptimer s) (calls s) (threw s)
      else s
  | DAccessor _ _ => s
  | DIntercept mine _ =>
      (* value = v; Object.defineProperty(obj, prop, {value: v, writable,
         configurable, enumerable}); callback(v) *)
      mkState (mkObj (DData v true true) (extensible o) (proto o)) (ptimer s)
        (if mine then calls s ++ [v] else calls s) (threw s)
  end.

(** One firing of the fallback interval. *)
Definition tick (s : state) : state :=
  match ptimer s with
  | Some tau =>
      if is_defined (read tau (target s))
      then mkState (target s) None (calls s ++ [read tau (target s)]) (threw s)
      else mkState (target s) (Some (tau + prop_poll_period)) (calls s) (threw s)
  | None => s
  end.

Inductive event := EAssign (v : jsval) | ETick.

Definition step (s : state) (e : event) : state :=
  match e with
  | EAssign v => assign v s
  | ETick => tick s
  end.

Definition run (s : state) (evs : list event) : state := fold_left step evs s.

Fixpoint run_ticks (n : nat) (s : state) : state :=
  match n with
  | O => s
  | S n' => run_ticks n' (tick s)
  end.

End PropertyWatcher.

(* ===================================================================== *)
(** * Shared string helpers *)
(* ===================================================================== *)

(** [0 === s.indexOf(t)] (and the loose [s.indexOf(t) == 0]) *)
Definition starts_at0 (t s : string) : bool :=
  match indexOf t s with
  | Some 0 => true
  | _ => false
  end.

(** [s.substring(k)] for a natural [k]. *)
Definition substr_from (k : nat) (s : string) : string := substring_from (Z.of_nat k) s.

(** [s.split(sep)] for a one-character separator. *)
Fixpoint split_on_aux (sep : ascii) (s cur : string) : list string :=
  match s with
  | EmptyString => [cur]
  | String c r =>
      if Ascii.eqb c sep then cur :: split_on_aux sep r ""
      else split_on_aux sep r (String.append cur (String c ""))
  end.

Definition split_on (sep : ascii) (s : string) : list string := split_on_aux sep s "".

(** [l.join(sep)] *)
Fixpoint join_with (sep : string) (l : list string) : string :=
  match l with
  | [] => ""
  | [x] => x
  | x :: r => String.append x (String.append sep (join_with sep r))
  end.

(* ===================================================================== *)
(** * The [DocumentUrls] overrides (OVERRIDE 3, 343-419) *)
(* ===================================================================== *)

Module DocumentUrls.

(** What the overridden methods read besides their argument. *)
Record env := mkUrlEnv {
  documentUrl : string;                     (* this.documentUrl *)
  correct : option (string -> string);      (* AscDesktopEditor.LocalFileGetImageUrlCorrect, when present *)
  theme_loader : option (string * string);  (* (ThemesUrl, ThemesUrlAbs) of window.editor.ThemeLoader,
                                               when window.editor and its ThemeLoader are truthy *)
  file_hash : string;                       (* window._ONLYOFFICE_FILE_HASH; "" when falsy *)
  IsLocalFileExist : string -> bool         (* AscDesktopEditor.IsLocalFileExist *)
}.

(** [getCorrectImageUrl(path)] *)
Definition getCorrectImageUrl (e : env) (path : string) : string :=
  match correct e with
  | Some f => f path
  | None => path
  end.

(** [window.editor && window.editor.ThemeLoader
     && window.editor.ThemeLoader.ThemesUrl != ""
     && strPath.indexOf(window.editor.ThemeLoader.ThemesUrl) == 0] *)
Definition under_themes_url (e : env) (strPath : string) : bool :=
  match theme_loader e with
  | Some (u, _) => negb (String.eqb u "") && starts_at0 u strPath
  | None => false
  end.

(** [prot.getImageUrl(strPath)]; [None] is [null]. *)
Definition getImageUrl (e : env) (strPath : string) : option string :=
  if starts_at0 "theme" strPath then None
  else if under_themes_url e strPath then None
  else Some (getCorrectImageUrl e
               (String.append (String.append (documentUrl e) "/media/") strPath)).

(** [s.replaceAll("%20", " ")]: matches taken left to right, without
    overlap. *)
Fixpoint replace20 (s : string) : string :=
  match s with
  | EmptyString => EmptyString
  | String c1 r1 =>
      match r1 with
      | String c2 (String c3 r3) =>
          if Ascii.eqb c1 "%"%char && Ascii.eqb c2 "2"%char && Ascii.eqb c3 "0"%char
          then String " "%char (replace20 r3)
          else String c1 (replace20 r1)
      | _ => String c1 (replace20 r1)
      end
  end.

(** [prot.getImageLocal(_url)]; the argument is [None] for [undefined] or
    [null], the result [None] for [null]. *)
Definition getImageLocal (e : env) (_url : option string) : option string :=
  let url := match _url with
             | Some u => if String.eqb u "" then "" else replace20 u
             | None => ""
             end in
  let _first := String.append (documentUrl e) "/media/" in
  if starts_at0 _first url then Some (substr_from (String.length _first) url)
  else
    let by_hash :=
      if String.eqb (file_hash e) "" then None
      else
        let mediaPattern := String.append "/api/media/" (String.append (file_hash e) "/") in
        match indexOf mediaPattern url with
        | Some idx => Some (substr_from (idx + String.length mediaPattern) url)
        | None => None
        end in
    match by_hash with
    | Some r => Some r
    | None =>
        match theme_loader e with
        | Some (_, abs) =>
            if starts_at0 abs url then Some (substr_from (String.length abs) url) else None
        | None => None
        end
    end.

Definition mediaPrefix : string := "media/".

(** [prot.imagePath2Local(imageLocal)]; [None] is [null] or [undefined]. *)
Definition imagePath2Local (imageLocal : option string) : option string :=
  match imageLocal with
  | Some l =>
      if negb (String.eqb l "")
         && String.eqb mediaPrefix (String.substring 0 (String.length mediaPrefix) l)
      then Some (substr_from (String.length mediaPrefix) l)
      else imageLocal
  | None => imageLocal
  end.

(** Results of [prot.getUrl]. *)
Inductive url_result := UNull | UUndefined | UStr (s : string).

(** [prot.getUrl(strPath)] *)
Definition getUrl (e : env) (strPath : string) : url_result :=
  if starts_at0 "theme" strPath then UNull
  else if under_themes_url e strPath then UNull
  else if String.eqb strPath "Editor.xlsx" then
    let test := String.append (String.append (documentUrl e) "/") strPath in
    if IsLocalFileExist e test then UStr test else UUndefined
  else UStr (String.append (String.append (documentUrl e) "/media/") strPath).

(** [prot.getLocal(url)] *)
Definition getLocal (e : env) (url : option string) : option string := getImageLocal e url.

(** Truthiness of [prot.isThemeUrl(sUrl)]
    ([sUrl && (0 === sUrl.indexOf('theme'))]). *)
Definition isThemeUrl (sUrl : option string) : bool :=
  match sUrl with
  | Some s => negb (String.eqb s "") && starts_at0 "theme" s
  | None => false
  end.

(** The argument [getUrl] receives for a [url_result] passed on as a
    string argument: [null] and [undefined] are [None]. *)
Definition url_arg (r : url_result) : option string :=
  match r with
  | UStr s => Some s
  | _ => None
  end.

End DocumentUrls.

(* ===================================================================== *)
(** * [UpdateInstallPlugins] (698-756) *)
(* ===================================================================== *)

Module Plugins.

Record variation := mkVariation { initDataType : string }.

(** A plugin object of the parsed JSON. *)
Record plugin := mkPlugin {
  guid : string;
  onlyofficeScheme : bool;               (* truthiness of ["onlyofficeScheme"] *)
  variations : option (list variation);  (* ["variations"]; [None] when falsy *)
  baseUrl : string
}.

(** Plugin objects live in a heap; the ["pluginsData"] arrays hold
    references (heap addresses) to them, so an object pushed to
    [_plugins["pluginsData"]] and then updated through
    [_pluginsCur["pluginsData"][i]] is one object. *)
Definition heap := list plugin.

Record group := mkGroup { url : string; pluginsData : list nat }.

(** [JSON.parse(...)] of a list of groups: every plugin object is a fresh
    heap cell. *)
Fixpoint alloc_groups (h : heap) (gs : list (string * list plugin)) : heap * list group :=
  match gs with
  | [] => (h, [])
  | (u, ps) :: r =>
      let refs := seq (List.length h) (List.length ps) in
      let '(h', r') := alloc_groups (h ++ ps) r in
      (h', mkGroup u refs :: r')
  end.

Definition parse (gs : list (string * list plugin)) : heap * list group := alloc_groups [] gs.

Definition plugin_dummy : plugin := mkPlugin "" false None "".

(** [h[l]] *)
Definition load (h : heap) (l : nat) : plugin := nth l h plugin_dummy.

(** [h[l]["baseUrl"] = v] *)
Definition set_baseUrl (h : heap) (l : nat) (v : string) : heap :=
  firstn l h ++ match skipn l h with
                | p :: r => mkPlugin (guid p) (onlyofficeScheme p) (variations p) v :: r
                | [] => []
                end.

(** [u.split(" ").join("%20")] *)
Definition encode_url (u : string) : string := join_with "%20" (split_on " "%char u).

(** One iteration of the inner [for (var i = 0; i < _len; i++)] loop, on
    the plugin at address [l] of a group whose (encoded) url is [gu]. *)
Definition visit (gu : string) (st : heap * list nat) (l : nat) : heap * list nat :=
  let '(h, out) := st in
  let h := set_baseUrl h l (String.append gu (String.append (substr_from 4 (guid (load h l))) "/")) in
  let out := out ++ [l] in
  let h := if onlyofficeScheme (load h l)
           then set_baseUrl h l (String.append "onlyoffice://plugin/" (baseUrl (load h l)))
           else h in
  (h, out).

(** [_variation["initDataType"] == "desktop"] *)
Definition is_desktop (v : variation) : bool := String.eqb (initDataType v) "desktop".

(** [arr.splice(i, 1)] *)
Definition remove_at (i : nat) (l : list nat) : list nat := firstn i l ++ skipn (S i) l.

(** The filtering [for] loop over [_plugins["pluginsData"]], from index
    [i], with its [splice(i, 1); --i] (the index stays put after a
    removal); the inner [for j] loop with [break] is [existsb]. [fuel]
    bounds the number of iterations. *)
Fixpoint prune (h : heap) (fuel i : nat) (out : list nat) : list nat :=
  match fuel with
  | O => out
  | S f =>
      match nth_error out i with
      | None => out
      | Some l =>
          match variations (load h l) with
          | None => prune h f i (remove_at i out)
          | Some vs =>
              if existsb is_desktop vs then prune h f i (remove_at i out)
              else prune h f (S i) out
          end
      end
  end.

(** The object [_plugins] given to [sendPluginsInit], read at that call. *)
Record message := mkMessage { murl : string; mdata : list plugin }.

Inductive peffect :=
| RegisterPluginsReset            (* _editor.asc_registerCallback("asc_onPluginsReset", ...) *)
| SendPluginsReset                (* _editor.sendEvent("asc_onPluginsReset") *)
| SendPluginsInit (m : message).  (* window.g_asc_plugins.sendPluginsInit(_plugins) *)

(** [UpdateInstallPlugins()] on the parsed host answer [json], with the
    current truthiness of [window.IsFirstPluginLoad]: the new value of
    that flag and the effects, or [None] when a TypeError is thrown
    (fewer than two groups: [_pluginsTmp[0]] or [_pluginsTmp[1]] is
    undefined). *)
Definition UpdateInstallPlugins (IsFirstPluginLoad : bool) (json : list (string * list plugin))
  : option (bool * list peffect) :=
  let '(h, gs) := parse json in
  match gs with
  | g0 :: g1 :: _ =>
      let g0 := mkGroup (encode_url (url g0)) (pluginsData g0) in
      let g1 := mkGroup (encode_url (url g1)) (pluginsData g1) in
      let '(h, out) :=
        fold_left (fun st g => fold_left (visit (url g)) (pluginsData g) st) [g0; g1] (h, []) in
      let out := prune h (List.length out) 0 out in
      let msg := mkMessage (url g0) (map (load h) out) in
      Some (true, (if IsFirstPluginLoad then [] else [RegisterPluginsReset])
                  ++ [SendPluginsReset; SendPluginsInit msg])
  | _ => None
  end.

End Plugins.

(* ===================================================================== *)
(** * [DesktopOfflineAppDocumentSignatures], [asc_IsVisibleSign] (758-834) *)
(* ===================================================================== *)

Module Signatures.

(** An entry of the parsed ["data"] array. *)
Record sign_json := mkSignJson {
  sguid : string;
  svalid : Z;
  simage_valid : string;
  simage_invalid : string;
  sname : string;
  sdate : string
}.

(** [_json] as the code sees it. *)
Inductive json_in :=
| JEmpty                                           (* "" *)
| JInvalid                                         (* JSON.parse throws *)
| JParsedNull                                      (* JSON.parse gives null *)
| JParsed (count : option Z) (data : list sign_json).
    (* ["count"] ([None]: undefined) and ["data"] ([[]] also for undefined) *)

(** The fields set on a [new AscCommon.asc_CSignatureLine()]. *)
Record sig_line := mkLine {
  lguid : string;
  lvalid : Z;
  limage : string;
  lsigner1 : string;
  lid : nat;
  ldate : string;
  lvisible : bool
}.

(** [window.asc_IsVisibleSign(guid)]: the loop with [break] over the ids
    of [_editor.asc_getAllSignatures()]. *)
Fixpoint asc_IsVisibleSign (req : list string) (guid : string) : bool :=
  match req with
  | [] => false
  | r :: rs => if String.eqb r guid then true else asc_IsVisibleSign rs guid
  end.

Definition image_prefix : string := "data:image/png;base64,".

(** The line built for [_data[i]]. *)
Definition make_line (req : list string) (i : nat) (s : sign_json) : sig_line :=
  let image := if Z.eqb (svalid s) 0 then simage_valid s else simage_invalid s in
  mkLine (sguid s) (svalid s) (String.append image_prefix image) (sname s) i (sdate s)
         (asc_IsVisibleSign req (sguid s)).

(** The [for (var i = 0; i < _count; i++)] loop from index [i] with
    [fuel] iterations left: the lines pushed to [_editor.signatures], and
    whether [_data[i]] was undefined, which makes [_sign["guid"]] throw. *)
Fixpoint sign_loop (req : list string) (data : list sign_json) (i fuel : nat)
  (acc : list sig_line) : list sig_line * bool :=
  match fuel with
  | O => (acc, false)
  | S f =>
      match nth_error data i with
      | Some s => sign_loop req data (S i) f (acc ++ [make_line req i s])
      | None => (acc, true)
      end
  end.

Inductive sigeffect :=
| LoadImages (images : list string)  (* _editor.ImageLoader.LoadImagesWithCallback(_images_loading, ...) *)
| UpdateSignatures.                  (* _editor.sendEvent("asc_onUpdateSignatures", ...) *)

(** [DesktopOfflineAppDocumentSignatures(_json)]: the new
    [_editor.signatures] and the effects after it; [req] are the ids of
    [_editor.asc_getAllSignatures()].  A thrown TypeError leaves the lines
    pushed so far and stops before the effects; for a [_json] that parses
    to [null], [_signatures["count"]] throws before the loop. *)
Definition DesktopOfflineAppDocumentSignatures (req : list string) (_json : json_in)
  : list sig_line * list sigeffect :=
  if match _json with JParsedNull => true | _ => false end then ([], []) else
  let '(count, data) := match _json with
                        | JParsed c d => (c, d)
                        | _ => (None, [])        (* _signatures = [] *)
                        end in
  let n := match count with Some c => Z.to_nat c | None => 0%nat end in
  let '(sigs, threw) := sign_loop req data 0 n [] in
  if threw then (sigs, [])
  else (sigs, [LoadImages (map limage sigs); UpdateSignatures]).

End Signatures.

(* ===================================================================== *)
(** * [asc_LocalRequestSign], [DesktopSaveQuestionReturn] and the
      double-click handler of [DesktopAfterOpen] (807-868) *)
(* ===================================================================== *)

Module SignRequest.

Record editor := mkEditor {
  restricted : bool;                        (* _editor.isRestrictionView() *)
  signatures : list Signatures.sig_line;    (* _editor.signatures *)
  modified : bool;                          (* _editor.isDocumentModified() *)
  all_signatures : list string              (* ids of _editor.asc_getAllSignatures() *)
}.

(** [window.SaveQuestionObjectBeforeSign]; [None] is [null]. *)
Record pending := mkPending { pguid : string; pwidth : option Z; pheight : option Z }.

Inductive seffect :=
| ViewCertificate (id : nat)                  (* AscDesktopEditor.ViewCertificate(id) *)
| SignatureClick (guid : string) (width height : option Z) (visible : bool)
                                              (* sendEvent("asc_onSignatureClick", ...) *)
| SaveQuestion                                (* AscDesktopEditor.SaveQuestion() *)
| AscSave (b : bool).                         (* _editor.asc_Save(b) *)

(** The search loop over [_editor.signatures]. *)
Fixpoint find_sign (l : list Signatures.sig_line) (guid : string) : option Signatures.sig_line :=
  match l with
  | [] => None
  | s :: r => if String.eqb (Signatures.lguid s) guid then Some s else find_sign r guid
  end.

(** [asc_LocalRequestSign(guid, width, height, isView)]; a width or
    height is [None] when undefined, and [isView] is [isView === true].
    Returns the new [SaveQuestionObjectBeforeSign] and the effects. *)
Definition asc_LocalRequestSign (ed : editor) (q : option pending) (guid : string)
  (width height : option Z) (isView : bool) : option pending * list seffect :=
  let '(width, height) :=
    if negb isView && match width with None => true | Some _ => false end
    then (Some 100%Z, Some 100%Z) else (width, height) in
  if restricted ed then (q, [])
  else
    match find_sign (signatures ed) guid with
    | Some s => (q, if isView then [ViewCertificate (Signatures.lid s)] else [])
    | None =>
        if negb (modified ed)
        then (q, [SignatureClick guid width height
                    (Signatures.asc_IsVisibleSign (all_signatures ed) guid)])
        else (Some (mkPending guid width height), [SaveQuestion])
    end.

(** [DesktopSaveQuestionReturn(isNeedSaved)], [isNeedSaved] by truthiness. *)
Definition DesktopSaveQuestionReturn (q : option pending) (isNeedSaved : bool)
  : option pending * list seffect :=
  if isNeedSaved then (q, [AscSave false]) else (None, []).

(** The [asc_onSignatureDblClick] callback registered by [DesktopAfterOpen]. *)
Definition on_signature_dblclick (ed : editor) (q : option pending) (guid : string)
  (width height : option Z) : option pending * list seffect :=
  asc_LocalRequestSign ed q guid width height true.

End SignRequest.

(* ===================================================================== *)
(** * [CFontFileLoader.prototype.LoadFontAsync] (OVERRIDE 2, 284-327) *)
(* ===================================================================== *)

Module Fonts.

Record font := mkFont {
  Id : string;
  Status : Z;
  callback : option nat;           (* this.callback; [None] for null or undefined *)
  externalCallback : option nat    (* this["externalCallback"]; [None] when falsy *)
}.

(** An entry of [AscFonts.g_fonts_streams], with the font whose request
    produced it. *)
Inductive stream :=
| FontStream (font : nat)          (* new AscFonts.FontStream(data, data.length) *)
| FontData3 (font : nat).          (* AscFonts.CreateFontData3(this.responseText) *)

Inductive feffect :=
| XhrOpen (font : nat) (url : string)   (* xhr.open('GET', url, true) ... xhr.send(null) *)
| SetStreamIndex (font idx : nat)       (* this.fontFile.SetStreamIndex(streamIndex) *)
| CallCallback (cb : nat)               (* this.fontFile.callback() *)
| CallExternal (cb : nat).              (* this.fontFile["externalCallback"]() *)

Record fstate := mkFState {
  fonts : list font;               (* the loader objects, by address *)
  g_fonts_streams : list stream;   (* AscFonts.g_fonts_streams *)
  xhrs : list nat;                 (* sent requests not loaded yet: their [fontFile] *)
  flog : list feffect
}.

Definition font_dummy : font := mkFont "" 0 None None.

Definition get_font (s : fstate) (f : nat) : font := nth f (fonts s) font_dummy.

Definition update_font (fs : list font) (f : nat) (fo : font) : list font :=
  firstn f fs ++ match skipn f fs with
                 | _ :: r => fo :: r
                 | [] => []
                 end.

Definition remove_nth (j : nat) (l : list nat) : list nat := firstn j l ++ skipn (S j) l.

(** [fonts[f].LoadFontAsync(basePath, cb)]: the new state and whether it
    returned [true] (otherwise it returns undefined). *)
Definition LoadFontAsync (f : nat) (cb : option nat) (s : fstate) : fstate * bool :=
  let fo := get_font s f in
  let fo := mkFont (Id fo) (Status fo) cb (externalCallback fo) in   (* this.callback = callback *)
  if negb (Z.eqb (Status fo) (-1))
  then (mkFState (update_font (fonts s) f fo) (g_fonts_streams s) (xhrs s) (flog s), true)
  else
    let fo := mkFont (Id fo) 2 (callback fo) (externalCallback fo) in
    (mkFState (update_font (fonts s) f fo) (g_fonts_streams s) (xhrs s ++ [f])
       (flog s ++ [XhrOpen f (String.append "ascdesktop://fonts/" (Id fo))]), false).

(** [xhr.onload] of the [j]-th pending request, with the HTTP [status]
    and the truthiness of [this.response]. *)
Definition onload (j : nat) (status : Z) (has_response : bool) (s : fstate) : fstate :=
  match nth_error (xhrs s) j with
  | None => s
  | Some f =>
      let xs := remove_nth j (xhrs s) in
      let fo := get_font s f in
      if negb (Z.eqb status 200) then
        mkFState (update_font (fonts s) f (mkFont (Id fo) 1 (callback fo) (externalCallback fo)))
          (g_fonts_streams s) xs (flog s)
      else
        let fo := mkFont (Id fo) 0 (callback fo) (externalCallback fo) in
        let streamIndex := List.length (g_fonts_streams s) in
        let st := if has_response then FontStream f else FontData3 f in
        mkFState (update_font (fonts s) f fo) (g_fonts_streams s ++ [st]) xs
          (flog s ++ [SetStreamIndex f streamIndex]
                  ++ match callback fo with Some c => [CallCallback c] | None => [] end
                  ++ match externalCallback fo with Some c => [CallExternal c] | None => [] end)
  end.

Inductive fevent :=
| FLoad (f : nat) (cb : option nat)
| FOnload (j : nat) (status : Z) (has_response : bool).

Definition fstep (s : fstate) (e : fevent) : fstate :=
  match e with
  | FLoad f cb => fst (LoadFontAsync f cb s)
  | FOnload j st r => onload j st r s
  end.

Definition frun (s : fstate) (evs : list fevent) : fstate := fold_left fstep evs s.

End Fonts.

(* ===================================================================== *)
(** * The drop handler of [AscCommon.InitDragAndDrop] (513-556) *)
(* ===================================================================== *)

Module DragDrop.

Record drop_env := mkDrop {
  GetDropFiles : list string;                       (* AscDesktopEditor.GetDropFiles() *)
  IsImageFile : string -> bool;                     (* AscDesktopEditor.IsImageFile *)
  LocalFileGetImageUrl : string -> option string;   (* [None] for null or undefined *)
  html_data : string;     (* e.dataTransfer.getData("text/html") *)
  text_data : string;     (* e.dataTransfer.getData("text/plain") *)
  urls : DocumentUrls.env (* AscCommon.g_oDocumentUrls *)
}.

Inductive deffect :=
| PreventDefault
| EndInlineDropTarget
| AddImageUrl (images : list (option string))   (* editor._addImageUrl(imageFiles) *)
| PasteHtml (s : string)                         (* editor["pluginMethod_PasteHtml"](s) *)
| PasteText (s : string).                        (* editor["pluginMethod_PasteText"](s) *)

(** The [for] loop over [_files], with its [continue] and [break]:
    [imageFiles] after it. *)
Fixpoint image_loop (d : drop_env) (files : list string) (imageFiles : list (option string))
  : list (option string) :=
  match files with
  | [] => imageFiles
  | f :: r =>
      if IsImageFile d f then
        if String.eqb f "" then image_loop d r imageFiles
        else
          match LocalFileGetImageUrl d f with
          | Some resImage =>
              if String.eqb resImage "" then imageFiles
              else imageFiles ++ [DocumentUrls.getImageUrl (urls d) resImage]
          | None => imageFiles
          end
      else image_loop d r imageFiles
  end.

(** [oHtmlElement["ondrop"](e)] *)
Definition ondrop (d : drop_env) : list deffect :=
  let _files := GetDropFiles d in
  let '(countInserted, ins) :=
    if negb (Nat.eqb (List.length _files) 0) then
      let imageFiles := image_loop d _files [] in
      let countInserted := List.length imageFiles in
      (countInserted, if negb (Nat.eqb countInserted 0) then [AddImageUrl imageFiles] else [])
    else (0%nat, []) in
  [PreventDefault; EndInlineDropTarget] ++ ins
  ++ (if Nat.eqb countInserted 0 then
        if negb (String.eqb (html_data d) "") then [PasteHtml (html_data d)]
        else if negb (String.eqb (text_data d) "") then [PasteText (text_data d)]
        else []
      else []).

End DragDrop.

(* ===================================================================== *)
(** * [pluginMethod_OnEncryption], installed by [setupEncryption] (895-941) *)
(* ===================================================================== *)

Module Encryption.

Record enc_obj := mkEncObj {
  otype : string;             (* obj.type *)
  password : option string;   (* obj["password"]; [None] when undefined *)
  docinfo : option string     (* obj["docinfo"]; [None] when undefined *)
}.

Record enc_env := mkEncEnv {
  window_editor : bool;                            (* window.editor is truthy *)
  host_present : bool;                             (* window["AscDesktopEditor"] is truthy *)
  isNativeOpenPassword : bool;                     (* window.isNativeOpenPassword *)
  doadssIsSaveAs : bool;                           (* window.doadssIsSaveAs *)
  CopyPasteCorrectString : option string -> string;  (* AscCommon.CopyPasteCorrectString *)
  Have_Changes : bool                              (* AscCommon.History.Have_Changes() *)
}.

Record enc_state := mkEncState {
  UserSavedIndex : option Z;               (* AscCommon.History.UserSavedIndex *)
  LastUserSavedIndex : option Z;           (* _editor.LastUserSavedIndex *)
  currentPassword : option string;         (* _editor.currentPassword *)
  currentDocumentInfoNext : option string; (* _editor.currentDocumentInfoNext *)
  CryptoMode : option Z                    (* AscDesktopEditor.CryptoMode *)
}.

Inductive eeffect :=
| UpdateInterfaceState                     (* _editor.UpdateInterfaceState() *)
| OnUpdateDocumentModified (b : bool)      (* _editor.onUpdateDocumentModified(b) *)
| SendNoCriticalError (msg : string)       (* sendEvent("asc_onError", msg, Level.NoCritical) *)
| StartSave (isSaveAs : bool) (pwd : option string) (docinfo : string)
                                           (* DesktopOfflineAppDocumentStartSave(..., true, ...) *)
| BuildCryptedStart                        (* AscDesktopEditor.buildCryptedStart() *)
| NativeViewerOpen (pwd : option string)   (* AscDesktopEditor.NativeViewerOpen(pwd) *)
| SetAdvancedOptions (param : string)      (* AscDesktopEditor.SetAdvancedOptions(param) *)
| OnNeedParams                             (* this._onNeedParams(undefined, true) *)
| ReceiveChanges.                          (* AscCommon.EncryptionWorker.receiveChanges(obj) *)

Definition msg_no_blockchain : string :=
  "There is no connection with the blockchain! End-to-end encryption mode is disabled.".

(** [v == ""] for a string or undefined. *)
Definition loose_eq_empty (v : option string) : bool :=
  match v with
  | Some p => String.eqb p ""
  | None => false
  end.

(** [obj["docinfo"] ? obj["docinfo"] : ""] *)
Definition docinfo_or_empty (d : option string) : string :=
  match d with
  | Some s => if String.eqb s "" then "" else s
  | None => ""
  end.

Definition pluginMethod_OnEncryption (env : enc_env) (s : enc_state) (obj : enc_obj)
  : enc_state * list eeffect :=
  if String.eqb (otype obj) "generatePassword" then
    if loose_eq_empty (password obj) then
      (mkEncState (LastUserSavedIndex s) None (currentPassword s) (currentDocumentInfoNext s)
         (if host_present env then Some 0%Z else CryptoMode s),
       [if window_editor env then UpdateInterfaceState
        else OnUpdateDocumentModified (Have_Changes env);
        SendNoCriticalError msg_no_blockchain])
    else
      (mkEncState (UserSavedIndex s) (LastUserSavedIndex s) (currentPassword s) (docinfo obj)
         (CryptoMode s),
       [StartSave (doadssIsSaveAs env) (password obj) (docinfo_or_empty (docinfo obj));
        BuildCryptedStart])
  else if String.eqb (otype obj) "getPasswordByFile" then
    if negb (loose_eq_empty (password obj)) then
      (mkEncState (UserSavedIndex s) (LastUserSavedIndex s) (password obj)
         (currentDocumentInfoNext s) (CryptoMode s),
       [if isNativeOpenPassword env then NativeViewerOpen (password obj)
        else SetAdvancedOptions
               (String.append "<m_sPassword>"
                  (String.append (CopyPasteCorrectString env (password obj)) "</m_sPassword>"))])
    else (s, [OnNeedParams])
  else if String.eqb (otype obj) "encryptData" || String.eqb (otype obj) "decryptData"
  then (s, [ReceiveChanges])
  else (s, []).

End Encryption.

(* ===================================================================== *)
(** * [asc_setLocalRestrictions] and [asc_getLocalRestrictions] (239-256) *)
(* ===================================================================== *)

Module Restrictions.

(** The part of the API object these methods touch: [localRestrintions]
    ([None]: undefined) and whether the [View] restriction is on
    ([asc_addRestriction] / [asc_removeRestriction] of
    [c_oAscRestrictionType.View]). *)
Record api := mkApi { localRestrintions : option Z; view_restricted : bool }.

Inductive reffect := HostSetLocalRestrictions (v : option Z).

Section Restr.

(** [Asc.c_oAscLocalRestrictionType.None] *)
Variable restriction_none : Z.

(** [value !== Asc.c_oAscLocalRestrictionType.None] *)
Definition differs_from_none (value : option Z) : bool :=
  match value with
  | Some v => negb (Z.eqb v restriction_none)
  | None => true
  end.

(** [api.asc_setLocalRestrictions(value, is_from_app)]; [host_setter] is
    the truthiness of [window["AscDesktopEditor"] &&
    window["AscDesktopEditor"]["SetLocalRestrictions"]]. *)
Definition asc_setLocalRestrictions (host_setter : bool) (a : api) (value : option Z)
  (is_from_app : bool) : api * list reffect :=
  let a := mkApi value (view_restricted a) in
  let a := if differs_from_none value
           then mkApi (localRestrintions a) true
           else mkApi (localRestrintions a) false in
  if is_from_app then (a, [])
  else (a, if host_setter then [HostSetLocalRestrictions value] else []).

(** [api.asc_getLocalRestrictions()] *)
Definition asc_getLocalRestrictions (a : api) : Z :=
  match localRestrintions a with
  | None => restriction_none
  | Some v => v
  end.

End Restr.

End Restrictions.

(* ===================================================================== *)
(** * Readiness barrier: proofs *)
(* ===================================================================== *)

Module BarrierFacts.

(** The promise is fulfilled exactly when all three flags are set. *)
Definition consistent (b : barrier) : Prop :=
  bready b = PFulfilled <-> all_ready (bstatus b) = true.

Ltac destruct_barrier b :=
  let x := fresh "x" in let y := fresh "y" in let z := fresh "z" in
  let r := fresh "r" in let l := fresh "l" in
  destruct b as [[x y z] r l].

Lemma markReady_status (f : flag) (b : barrier) :
  bstatus (markReady f b) = set_flag f (bstatus b).
Proof.
  unfold markReady, checkAllReady; simpl.
  destruct (all_ready (set_flag f (bstatus b))); reflexivity.
Qed.

Lemma markReady_ready (f : flag) (b : barrier) :
  bready (markReady f b) =
  if all_ready (set_flag f (bstatus b)) then PFulfilled else bready b.
Proof.
  unfold markReady, checkAllReady; simpl.
  destruct (all_ready (set_flag f (bstatus b))); [destruct (bready b)|]; reflexivity.
Qed.

Lemma markReady_consistent (f : flag) (b : barrier) :
  consistent b -> consistent (markReady f b).
Proof.
  unfold consistent; rewrite markReady_ready, markReady_status.
  destruct_barrier b; destruct f, x, y, z, r; simpl; intuition congruence.
Qed.

Lemma init_consistent : consistent barrier_init.
Proof. unfold consistent, all_ready; simpl; split; discriminate. Qed.

Lemma run_barrier_cons (f : flag) (evs : list flag) (b : barrier) :
  run_barrier b (f :: evs) = run_barrier (markReady f b) evs.
Proof. reflexivity. Qed.

Lemma run_consistent (evs : list flag) (b : barrier) :
  consistent b -> consistent (run_barrier b evs).
Proof.
  revert b; induction evs as [|f evs IH]; intros b Hb; [exact Hb|].
  rewrite run_barrier_cons; apply IH, markReady_consistent, Hb.
Qed.

Lemma run_status (evs : list flag) (b : barrier) :
  bstatus (run_barrier b evs) =
  mkStatus (baseEditorsApi (bstatus b) || existsb (flag_eqb FBaseEditorsApi) evs)
           (fonts (bstatus b) || existsb (flag_eqb FFonts) evs)
           (sdk (bstatus b) || existsb (flag_eqb FSdk) evs).
Proof.
  revert b; induction evs as [|f evs IH]; intros b.
  - destruct_barrier b; simpl; rewrite !orb_false_r; reflexivity.
  - rewrite run_barrier_cons, IH, markReady_status.
    destruct_barrier b; destruct f, x, y, z; reflexivity.
Qed.

Lemma ready_from_init (p : list flag) :
  bready (run_barrier barrier_init p) = if all_set p then PFulfilled else PPending.
Proof.
  pose proof (run_consistent p barrier_init init_consistent) as H.
  unfold consistent in H; rewrite run_status in H; simpl in H.
  unfold all_set, all_ready in *; simpl in H.
  destruct (bready (run_barrier barrier_init p)), (existsb (flag_eqb FBaseEditorsApi) p),
    (existsb (flag_eqb FFonts) p), (existsb (flag_eqb FSdk) p); simpl in *;
    intuition congruence.
Qed.

Lemma fires_nth (evs : list flag) (b : barrier) (i : nat) :
  nth_error (fires b evs) i =
  if Nat.ltb i (List.length evs)
  then Some (fired (run_barrier b (firstn i evs)) (run_barrier b (firstn (S i) evs)))
  else None.
Proof.
  revert b i; induction evs as [|f evs IH]; intros b i; [destruct i; reflexivity|].
  destruct i as [|i]; [reflexivity|].
  simpl fires; simpl nth_error; rewrite IH; reflexivity.
Qed.

Lemma fulfilled_stays (evs : list flag) (b : barrier) :
  bready b = PFulfilled -> count_true (fires b evs) = 0 /\ bready (run_barrier b evs) = PFulfilled.
Proof.
  revert b; induction evs as [|f evs IH]; intros b Hb; [split; [reflexivity|exact Hb]|].
  assert (Hm : bready (markReady f b) = PFulfilled)
    by (rewrite markReady_ready, Hb; destruct (all_ready _); reflexivity).
  simpl fires; unfold fired at 1; rewrite Hb.
  rewrite run_barrier_cons; exact (IH _ Hm).
Qed.

Lemma count_fires (evs : list flag) (b : barrier) :
  consistent b ->
  count_true (fires b evs) =
  match bready b, bready (run_barrier b evs) with
  | PPending, PFulfilled => 1
  | _, _ => 0
  end.
Proof.
  revert b; induction evs as [|f evs IH]; intros b Hb.
  - simpl; destruct (bready b); reflexivity.
  - destruct (bready b) eqn:Hr.
    + simpl fires; unfold fired at 1; rewrite Hr.
      destruct (bready (markReady f b)) eqn:Hm; cbn [count_true].
      * rewrite IH by (apply markReady_consistent, Hb).
        rewrite Hm, run_barrier_cons; reflexivity.
      * rewrite run_barrier_cons.
        destruct (fulfilled_stays evs _ Hm) as [-> ->]; reflexivity.
    + exact (proj1 (fulfilled_stays (f :: evs) b Hr)).
Qed.

End BarrierFacts.

(* ===================================================================== *)
(** * Entry-point guard: proofs *)
(* ===================================================================== *)

Module GuardFacts.

(** Every continuation registered on [_commonJsReady] is waiting, queued
    or has run; there is one once the guard is set, none before. *)
Definition continuations (s : orch) : nat :=
  List.length (owaiting s) + List.length (omicro s) + List.length (oran s).

Definition guard_inv (s : orch) : Prop :=
  continuations s = if _documentLoadStarted s then 1 else 0.

Lemma step_started (s : orch) (e : page_event) :
  _documentLoadStarted s = true -> _documentLoadStarted (page_step s e) = true.
Proof.
  intro H; destruct e as [a| |]; simpl.
  - unfold DesktopOfflineAppDocumentEndLoad; rewrite H; reflexivity.
  - destruct (oready s); simpl; exact H.
  - exact H.
Qed.

Lemma run_started (evs : list page_event) (s : orch) :
  _documentLoadStarted s = true -> _documentLoadStarted (run_page s evs) = true.
Proof.
  revert s; induction evs as [|e evs IH]; intros s H; [exact H|].
  apply IH, step_started, H.
Qed.

Lemma step_inv (s : orch) (e : page_event) :
  guard_inv s -> guard_inv (page_step s e).
Proof.
  unfold guard_inv, continuations; intro H.
  destruct s as [st rd w m r l]; destruct e as [a| |]; simpl in *.
  - unfold DesktopOfflineAppDocumentEndLoad; simpl.
    destruct st; simpl; [exact H|].
    destruct rd; simpl; rewrite length_app; simpl; lia.
  - destruct rd; simpl; [exact H|]. rewrite length_app in *; simpl; lia.
  - rewrite length_app; simpl; lia.
Qed.

Lemma run_guard_inv (evs : list page_event) (s : orch) :
  guard_inv s -> guard_inv (run_page s evs).
Proof.
  revert s; induction evs as [|e evs IH]; intros s H; [exact H|].
  apply IH, step_inv, H.
Qed.

Lemma init_inv : guard_inv orch_init.
Proof. reflexivity. Qed.

End GuardFacts.

(* ===================================================================== *)
(** * Path Watcher: proofs *)
(* ===================================================================== *)

(** The barrier after a degrade: every flag set and the promise fulfilled. *)
Definition complete (b : barrier) : Prop :=
  all_ready (bstatus b) = true /\ bready b = PFulfilled.

Lemma forceComplete_complete (msg : string) (b : barrier) :
  complete (forceComplete msg b) /\ In msg (blog (forceComplete msg b)).
Proof.
  unfold forceComplete, checkAllReady, complete; simpl.
  split; [split; [reflexivity | destruct (bready b); reflexivity]|].
  apply in_or_app; left; apply in_or_app; right; left; reflexivity.
Qed.

Module PathWatcherFacts.
Import PathWatcher.
Local Open Scope Z_scope.

Section Facts.

Variable get : Z -> jsval -> string -> jsval.
Variable window : jsval.
Variable pathStr : string.
Variable startTime : Z.
Variable maxWait : Z.
Hypothesis maxWait_nonneg : 0 <= maxWait.

Definition is_polling (s : state) : bool :=
  match ph s with
  | Polling _ _ _ _ => true
  | _ => false
  end.

(** What holds of every state of a watch started at [startTime]. *)
Definition inv (s : state) : Prop :=
  match ph s with
  | Polling _ _ _ _ =>
      exists tau, timer s = Some tau /\ startTime < tau
                  /\ tau - path_poll_period - startTime <= maxWait
  | Resolved t _ => timer s = None /\ startTime <= t /\ t - startTime <= maxWait
  | TimedOut tau =>
      timer s = None /\ startTime + maxWait < tau <= startTime + maxWait + path_poll_period
      /\ complete (bar s) /\ In (msg_timeout pathStr) (blog (bar s))
  | Failed t idx =>
      timer s = None /\ startTime <= t <= startTime + maxWait
      /\ complete (bar s) /\ In (msg_failed pathStr idx) (blog (bar s))
  end.

Lemma resolve_inv (rest : list string) (t : Z) (idx : nat) (obj : jsval) (b : barrier) :
  startTime <= t -> t - startTime <= maxWait ->
  inv (resolve get pathStr t rest idx obj b).
Proof.
  revert idx obj; induction rest as [|prop rest IH]; intros idx obj H1 H2; simpl.
  - unfold inv; simpl; auto.
  - destruct (truthy obj && is_defined (get t obj prop)); [apply IH; assumption|].
    destruct (truthy obj); unfold inv; simpl.
    + exists (t + path_poll_period); unfold path_poll_period in *; repeat split; lia.
    + pose proof (forceComplete_complete (msg_failed pathStr idx) b) as [Hc Hi].
      repeat split; try lia; try apply Hc; exact Hi.
Qed.

Lemma resolve_polling_timer (rest : list string) (t : Z) (idx : nat) (obj : jsval) (b : barrier) :
  is_polling (resolve get pathStr t rest idx obj b) = true ->
  timer (resolve get pathStr t rest idx obj b) = Some (t + path_poll_period).
Proof.
  revert idx obj; induction rest as [|prop rest IH]; intros idx obj; simpl; [discriminate|].
  destruct (truthy obj && is_defined (get t obj prop)); [apply IH|].
  destruct (truthy obj); simpl; [reflexivity | discriminate].
Qed.

Lemma tick_not_polling (s : state) :
  is_polling s = false -> tick get pathStr startTime maxWait s = s.
Proof. unfold is_polling, tick; destruct (ph s); try reflexivity; discriminate. Qed.

Lemma run_not_polling (n : nat) (s : state) :
  is_polling s = false -> run get pathStr startTime maxWait n s = s.
Proof.
  revert s; induction n as [|n IH]; intros s H; [reflexivity|].
  simpl; rewrite tick_not_polling by exact H; apply IH, H.
Qed.

Lemma tick_inv (s : state) : inv s -> inv (tick get pathStr startTime maxWait s).
Proof.
  intro H; unfold tick.
  destruct (ph s) as [idx obj prop rest|t v|tau|t idx] eqn:Hp; try (cbv beta iota; exact H).
  unfold inv in H; rewrite Hp in H; destruct H as (tau & Ht & H1 & H2); rewrite Ht.
  unfold path_poll_period in *.
  destruct (Z.ltb maxWait (tau - startTime)) eqn:Hlt.
  - apply Z.ltb_lt in Hlt.
    pose proof (forceComplete_complete (msg_timeout pathStr) (bar s)) as [Hc Hi].
    unfold inv, path_poll_period; simpl; repeat split; try lia; try apply Hc; exact Hi.
  - apply Z.ltb_ge in Hlt.
    destruct (is_defined (get tau obj prop)).
    + apply resolve_inv; lia.
    + unfold inv, path_poll_period; simpl; exists (tau + 20); repeat split; lia.
Qed.

Lemma run_watch_inv (n : nat) (s : state) : inv s -> inv (run get pathStr startTime maxWait n s).
Proof.
  revert s; induction n as [|n IH]; intros s H; [exact H|].
  simpl; apply IH, tick_inv, H.
Qed.

Lemma waitForPath_inv (b : barrier) : inv (waitForPath get window pathStr startTime b).
Proof. unfold waitForPath; apply resolve_inv; lia. Qed.

(** From a polling state, each firing ends the watch or re-arms the
    interval one period later. *)
Lemma tick_advance (s : state) (tau : Z) :
  is_polling s = true -> timer s = Some tau ->
  is_polling (tick get pathStr startTime maxWait s) = false
  \/ timer (tick get pathStr startTime maxWait s) = Some (tau + path_poll_period).
Proof.
  intros Hp Ht; unfold tick; unfold is_polling in Hp.
  destruct (ph s) as [idx obj prop rest| | |] eqn:Hph; try discriminate.
  rewrite Ht.
  destruct (Z.ltb maxWait (tau - startTime)); [left; reflexivity|].
  destruct (is_defined (get tau obj prop)).
  - destruct (is_polling (resolve get pathStr tau rest (S idx) (get tau obj prop) (bar s))) eqn:E.
    + right; apply resolve_polling_timer, E.
    + left; reflexivity.
  - right; reflexivity.
Qed.

Lemma run_polling_timer (n : nat) (s : state) (tau : Z) :
  is_polling s = true -> timer s = Some tau ->
  is_polling (run get pathStr startTime maxWait n s) = true ->
  timer (run get pathStr startTime maxWait n s) = Some (tau + path_poll_period * Z.of_nat n).
Proof.
  revert s tau; induction n as [|n IH]; intros s tau Hp Ht Hr.
  - simpl; rewrite Ht; f_equal; lia.
  - simpl in Hr |- *.
    destruct (tick_advance s tau Hp Ht) as [Hn | Ht'].
    + rewrite run_not_polling in Hr by exact Hn; congruence.
    + destruct (is_polling (tick get pathStr startTime maxWait s)) eqn:Hp'.
      * rewrite (IH _ _ Hp' Ht' Hr); unfold path_poll_period; f_equal; lia.
      * rewrite run_not_polling in Hr by exact Hp'; congruence.
Qed.

(** No watch is still polling after [maxWait / 20 + 1] firings. *)
Lemma run_terminates (b : barrier) (n : nat) :
  (Z.to_nat (maxWait / path_poll_period) < n)%nat ->
  is_polling (run get pathStr startTime maxWait n (waitForPath get window pathStr startTime b)) = false.
Proof.
  intro Hn.
  set (s0 := waitForPath get window pathStr startTime b).
  destruct (is_polling s0) eqn:H0; [|rewrite run_not_polling by exact H0; exact H0].
  destruct (is_polling (run get pathStr startTime maxWait n s0)) eqn:Hr; [|reflexivity].
  exfalso.
  assert (Ht0 : timer s0 = Some (startTime + path_poll_period))
    by (apply resolve_polling_timer, H0).
  pose proof (run_polling_timer n s0 _ H0 Ht0 Hr) as Ht.
  pose proof (run_watch_inv n s0 (waitForPath_inv b)) as Hi.
  unfold inv, is_polling in Hi, Hr.
  destruct (ph (run get pathStr startTime maxWait n s0)); try discriminate.
  destruct Hi as (tau & Htau & _ & Hle).
  rewrite Ht in Htau.
  assert (Etau : tau = startTime + path_poll_period + path_poll_period * Z.of_nat n)
    by congruence.
  unfold path_poll_period in *.
  pose proof (Z.div_mod maxWait 20 ltac:(lia)) as Hd.
  pose proof (Z.mod_pos_bound maxWait 20 ltac:(lia)) as Hm.
  assert (Z.of_nat n >= maxWait / 20 + 1).
  { apply Nat2Z.inj_lt in Hn. rewrite Z2Nat.id in Hn; [lia|].
    apply Z.div_pos; lia. }
  lia.
Qed.

End Facts.

End PathWatcherFacts.

(* ===================================================================== *)
(** * Property Watcher: proofs *)
(* ===================================================================== *)

Module PropertyWatcherFacts.
Import PropertyWatcher.
Local Open Scope Z_scope.

Lemma run_cons (s : state) (e : event) (evs : list event) :
  run s (e :: evs) = run (step s e) evs.
Proof. reflexivity. Qed.

Lemma last_cons_shift (A : Type) (v w : A) (vs : list A) :
  last (v :: vs) w = last vs v.
Proof.
  revert v w; induction vs as [|x vs IH]; intros v w; [reflexivity|].
  change (last (x :: vs) w = last (x :: vs) v); rewrite !IH; reflexivity.
Qed.

(** Assignments to a plain writable, configurable property are plain
    writes. *)
Lemma assign_plain (vs : list jsval) (w : jsval) (ext : bool) (pr : inherited)
    (tm : option Z) (cs : list jsval) (th : bool) :
  run (mkState (mkObj (DData w true true) ext pr) tm cs th) (map EAssign vs)
  = mkState (mkObj (DData (last vs w) true true) ext pr) tm cs th.
Proof.
  revert w; induction vs as [|v vs IH]; intro w; [reflexivity|].
  rewrite last_cons_shift, map_cons, run_cons; unfold step, assign.
  cbn -[run last]; apply IH.
Qed.

(** After the interception is installed, the first assignment runs the
    callback once and every later one is a plain write. *)
Lemma assign_intercepted (v : jsval) (vs : list jsval) (ext : bool) (pr : inherited)
    (tm : option Z) (cs : list jsval) (th : bool) :
  run (mkState (mkObj (DIntercept true JUndef) ext pr) tm cs th) (map EAssign (v :: vs))
  = mkState (mkObj (DData (last (v :: vs) v) true true) ext pr) tm (cs ++ [v]) th.
Proof.
  rewrite last_cons_shift, map_cons, run_cons; unfold step, assign.
  cbn -[run last]; apply assign_plain.
Qed.

(** A timer is armed only while this watch's callback has not run, and
    never next to this watch's own interception. *)
Definition timer_inv (s : state) : Prop :=
  ptimer s = None
  \/ (calls s = [] /\ forall v, slot (target s) <> DIntercept true v).

Lemma step_timer_inv (s : state) (e : event) : timer_inv s -> timer_inv (step s e).
Proof.
  intros [H | [Hc Hs]]; destruct s as [[sl ext pr] tm cs th]; simpl in *.
  - subst tm; left; destruct e as [v|]; simpl; [|reflexivity].
    unfold assign; simpl; destruct sl; [destruct pr; try destruct writable0| | |];
      try destruct ext; try destruct writable; try destruct mine; reflexivity.
  - subst cs; destruct e as [v|]; simpl.
    + right; unfold assign; simpl.
      destruct sl as [|w wr c|g c|mine w]; simpl.
      * destruct (_ && ext); simpl; split; auto; intros x Hx; discriminate.
      * destruct wr; simpl; split; auto; intros x Hx; discriminate.
      * split; auto.
      * destruct mine; [exfalso; eapply Hs; reflexivity|].
        simpl; split; auto; intros x Hx; discriminate.
    + unfold tick; simpl; destruct tm as [tau|]; [|right; auto].
      destruct (is_defined (read tau (mkObj sl ext pr))); [left; reflexivity|].
      right; simpl; auto.
Qed.

Lemma run_timer_inv (evs : list event) (s : state) : timer_inv s -> timer_inv (run s evs).
Proof.
  revert s; induction evs as [|e evs IH]; intros s H; [exact H|].
  rewrite run_cons; apply IH, step_timer_inv, H.
Qed.

Lemma start_timer_inv (t : Z) (o : jsobj) (ps : state) :
  (forall v, slot o <> DIntercept true v) ->
  snd (waitForProperty t (Some o)) = Some ps -> timer_inv ps.
Proof.
  intros Ho H; simpl in H; injection H as <-.
  destruct (is_defined (read t o)); [left; reflexivity|].
  destruct (has_accessor o); [right; simpl; auto|].
  destruct (can_define_accessor o); left; reflexivity.
Qed.

(** The fallback poll over a getter that always yields [undefined]. *)
Lemma run_ticks_undefined (g : Z -> jsval) (c ext : bool) (pr : inherited) (n : nat) (tau : Z)
    (th : bool) :
  (forall t, g t = JUndef) ->
  run_ticks n (mkState (mkObj (DAccessor g c) ext pr) (Some tau) [] th)
  = mkState (mkObj (DAccessor g c) ext pr) (Some (tau + prop_poll_period * Z.of_nat n)) [] th.
Proof.
  intro Hg; revert tau; induction n as [|n IH]; intro tau.
  - simpl; do 3 f_equal; lia.
  - cbn [run_ticks]; unfold tick, read; cbn [ptimer target slot calls threw extensible proto].
    rewrite Hg; cbn [is_defined]; rewrite IH; unfold prop_poll_period.
    rewrite Nat2Z.inj_succ.
    replace (tau + 10 + 10 * Z.of_nat n) with (tau + 10 * Z.succ (Z.of_nat n)) by lia.
    reflexivity.
Qed.

End PropertyWatcherFacts.

(* ===================================================================== *)
(** * Facts about the remaining functions *)
(* ===================================================================== *)

Module StringFacts.

Lemma append_nil_r (s : string) : String.append s "" = s.
Proof. induction s as [|c s IH]; simpl; [reflexivity | rewrite IH; reflexivity]. Qed.

Lemma append_assoc (a b c : string) :
  String.append (String.append a b) c = String.append a (String.append b c).
Proof. induction a as [|x a IH]; simpl; [reflexivity | rewrite IH; reflexivity]. Qed.

Lemma length_append (a b : string) :
  String.length (String.append a b) = String.length a + String.length b.
Proof. induction a as [|x a IH]; simpl; [reflexivity | rewrite IH; reflexivity]. Qed.

Lemma index0_cons (t : string) (c : ascii) (r : string) :
  String.index 0 t (String c r) =
  if String.prefix t (String c r) then Some 0
  else match String.index 0 t r with Some n => Some (S n) | None => None end.
Proof. reflexivity. Qed.

Lemma starts_at0_prefix (t s : string) : starts_at0 t s = String.prefix t s.
Proof.
  unfold starts_at0, indexOf; destruct s as [|c r].
  - destruct t; reflexivity.
  - rewrite index0_cons; destruct (String.prefix t (String c r)); [reflexivity|].
    destruct (String.index 0 t r); reflexivity.
Qed.

Lemma substring_all (s : string) : String.substring 0 (String.length s) s = s.
Proof. induction s as [|c s IH]; simpl; [reflexivity | rewrite IH; reflexivity]. Qed.

Lemma prefix_append (t x : string) : String.prefix t (String.append t x) = true.
Proof.
  apply String.prefix_correct.
  induction t as [|c t IH]; simpl; [destruct x; reflexivity | rewrite IH; reflexivity].
Qed.

Lemma substr_from_append (t x : string) :
  substr_from (String.length t) (String.append t x) = x.
Proof.
  unfold substr_from, substring_from; rewrite Nat2Z.id, length_append.
  replace (String.length t + String.length x - String.length t)%nat with (String.length x) by lia.
  induction t as [|c t IH]; simpl; [apply substring_all | exact IH].
Qed.

End StringFacts.

Module DocumentUrlsFacts.
Import DocumentUrls StringFacts.

Lemma replace20_cons (c : ascii) (r : string) :
  Ascii.eqb c "%"%char = false -> replace20 (String c r) = String c (replace20 r).
Proof.
  intro H; destruct r as [|c2 [|c3 r3]]; simpl; try reflexivity.
  rewrite H; reflexivity.
Qed.

Lemma replace20_3 (c1 c2 c3 : ascii) (r : string) :
  replace20 (String c1 (String c2 (String c3 r)))
  = if Ascii.eqb c1 "%"%char && Ascii.eqb c2 "2"%char && Ascii.eqb c3 "0"%char
    then String " "%char (replace20 r)
    else String c1 (replace20 (String c2 (String c3 r))).
Proof. reflexivity. Qed.

Lemma append_cons (x : ascii) (a b : string) :
  String.append (String x a) b = String x (String.append a b).
Proof. reflexivity. Qed.

Lemma replace20_app_sep (c : ascii) (b : string) :
  Ascii.eqb c "2"%char = false -> Ascii.eqb c "0"%char = false ->
  forall n a, String.length a < n ->
  replace20 (String.append a (String c b)) = String.append (replace20 a) (replace20 (String c b)).
Proof.
  intros H2 H0 n; induction n as [|n IH]; intros a Hl; [lia|].
  destruct a as [|c1 [|c2 [|c3 r3]]].
  - reflexivity.
  - simpl; destruct b as [|c3 r3]; [reflexivity|].
    rewrite H2, !andb_false_r; reflexivity.
  - simpl; destruct b as [|c4 r4]; simpl; rewrite ?H0, ?H2, ?andb_false_r, ?andb_false_l;
      reflexivity.
  - simpl in Hl.
    change (String.append (String c1 (String c2 (String c3 r3))) (String c b))
      with (String c1 (String c2 (String c3 (String.append r3 (String c b))))).
    rewrite !replace20_3.
    destruct (Ascii.eqb c1 "%" && Ascii.eqb c2 "2" && Ascii.eqb c3 "0"); rewrite append_cons.
    + f_equal; apply IH; lia.
    + f_equal; apply (IH (String c2 (String c3 r3))); simpl; lia.
Qed.

Lemma replace20_media (p : string) :
  replace20 (String.append "/media/" p) = String.append "/media/" (replace20 p).
Proof. cbn [String.append]; rewrite !replace20_cons by reflexivity; reflexivity. Qed.

(** The media URL [getImageUrl] builds for a path, once the
    [replaceAll("%20", " ")] of [getImageLocal] has run over it. *)
Lemma replace20_media_url (d p : string) :
  replace20 d = d ->
  replace20 (String.append (String.append d "/media/") p)
  = String.append (String.append d "/media/") (replace20 p).
Proof.
  intro Hd; rewrite !append_assoc.
  change (String.append "/media/" p) with (String "/" (String.append "media/" p)).
  rewrite (replace20_app_sep "/"%char _ eq_refl eq_refl (S (String.length d)) d ltac:(lia)).
  rewrite Hd; change (String "/" (String.append "media/" p)) with (String.append "/media/" p).
  rewrite replace20_media; reflexivity.
Qed.

Lemma media_url_nonempty (d p : string) :
  String.eqb (String.append (String.append d "/media/") p) "" = false.
Proof. destruct d; reflexivity. Qed.

Lemma getImageLocal_media (e : env) (p : string) :
  replace20 (documentUrl e) = documentUrl e ->
  getImageLocal e (Some (String.append (String.append (documentUrl e) "/media/") p))
  = Some (replace20 p).
Proof.
  intro Hd; unfold getImageLocal.
  rewrite media_url_nonempty, replace20_media_url by exact Hd.
  rewrite starts_at0_prefix, prefix_append, substr_from_append; reflexivity.
Qed.

End DocumentUrlsFacts.

Module SplitJoinFacts.
Import StringFacts.

(** Every occurrence of [c] in [s] replaced by [sep]. *)
Fixpoint replace_char (c : ascii) (sep s : string) : string :=
  match s with
  | EmptyString => EmptyString
  | String d r =>
      if Ascii.eqb d c then String.append sep (replace_char c sep r)
      else String d (replace_char c sep r)
  end.

(** Number of occurrences of [c] in [s]. *)
Fixpoint count_char (c : ascii) (s : string) : nat :=
  match s with
  | EmptyString => 0
  | String d r => (if Ascii.eqb d c then 1 else 0) + count_char c r
  end.

Lemma split_on_aux_cons (c : ascii) (s cur : string) :
  exists x l, split_on_aux c s cur = x :: l.
Proof.
  revert cur; induction s as [|d r IH]; intro cur; simpl; [eauto|].
  destruct (Ascii.eqb d c); eauto.
Qed.

Lemma join_split_aux (c : ascii) (sep s cur : string) :
  join_with sep (split_on_aux c s cur) = String.append cur (replace_char c sep s).
Proof.
  revert cur; induction s as [|d r IH]; intro cur; simpl.
  - rewrite append_nil_r; reflexivity.
  - destruct (Ascii.eqb d c).
    + destruct (split_on_aux_cons c r "") as (x & l & E).
      change (join_with sep (cur :: split_on_aux c r ""))
        with (match split_on_aux c r "" with
              | [] => cur
              | _ :: _ => String.append cur (String.append sep (join_with sep (split_on_aux c r "")))
              end).
      rewrite E, <- E, IH; reflexivity.
    + rewrite IH, append_assoc; reflexivity.
Qed.

Lemma length_split_aux (c : ascii) (s cur : string) :
  List.length (split_on_aux c s cur) = S (count_char c s).
Proof.
  revert cur; induction s as [|d r IH]; intro cur; simpl; [reflexivity|].
  destruct (Ascii.eqb d c); simpl; rewrite IH; reflexivity.
Qed.

Lemma replace_char_self (c : ascii) (s : string) : replace_char c (String c "") s = s.
Proof.
  induction s as [|d r IH]; simpl; [reflexivity|].
  destruct (Ascii.eqb d c) eqn:E; rewrite IH; [|reflexivity].
  apply Ascii.eqb_eq in E; subst; reflexivity.
Qed.

Lemma split_dot_aux_on (s cur : string) : split_dot_aux s cur = split_on_aux "."%char s cur.
Proof.
  revert cur; induction s as [|d r IH]; intro cur; simpl; [reflexivity|].
  rewrite !IH; reflexivity.
Qed.

Lemma join_dot_with (l : list string) : join_dot l = join_with "." l.
Proof.
  induction l as [|x [|y r] IH]; [reflexivity | reflexivity|].
  change (join_dot (x :: y :: r)) with (String.append x (String.append "." (join_dot (y :: r)))).
  rewrite IH; reflexivity.
Qed.

Lemma count_char_append (c : ascii) (a b : string) :
  count_char c (String.append a b) = count_char c a + count_char c b.
Proof. induction a as [|d r IH]; simpl; [reflexivity | rewrite IH; lia]. Qed.

Lemma no_char_replace (c : ascii) (sep s : string) :
  count_char c sep = 0 -> count_char c (replace_char c sep s) = 0.
Proof.
  intro Hs; induction s as [|d r IH]; simpl; [reflexivity|].
  destruct (Ascii.eqb d c) eqn:E.
  - rewrite count_char_append, Hs, IH; reflexivity.
  - simpl; rewrite E, IH; reflexivity.
Qed.

End SplitJoinFacts.

Module PluginsFacts.
Import Plugins.

(** A plugin that survives the filtering loop. *)
Definition kept (p : plugin) : bool :=
  match variations p with
  | None => false
  | Some vs => negb (existsb is_desktop vs)
  end.

(** A plugin after the inner loop has set its ["baseUrl"], for a group
    whose encoded url is [gu]. *)
Definition finish (gu : string) (p : plugin) : plugin :=
  let b := String.append gu (String.append (substr_from 4 (guid p)) "/") in
  mkPlugin (guid p) (onlyofficeScheme p) (variations p)
    (if onlyofficeScheme p then String.append "onlyoffice://plugin/" b else b).

Definition with_base (p : plugin) (v : string) : plugin :=
  mkPlugin (guid p) (onlyofficeScheme p) (variations p) v.

Lemma set_baseUrl_spec (h : heap) (l : nat) (v : string) :
  l < List.length h ->
  List.length (set_baseUrl h l v) = List.length h
  /\ forall m, load (set_baseUrl h l v) m = if Nat.eqb m l then with_base (load h l) v else load h m.
Proof.
  intro Hl; unfold set_baseUrl, load.
  destruct (skipn l h) as [|p r] eqn:Hs.
  { pose proof (length_skipn l h) as H; rewrite Hs in H; simpl in H; lia. }
  assert (Hp : nth l h plugin_dummy = p).
  { rewrite <- (Nat.add_0_r l), <- nth_skipn, Hs; reflexivity. }
  assert (Hf : List.length (firstn l h) = l) by (rewrite length_firstn; lia).
  split.
  - rewrite length_app, Hf; simpl.
    pose proof (length_skipn l h) as H; rewrite Hs in H; simpl in H; lia.
  - intro m; destruct (Nat.eqb m l) eqn:E.
    + apply Nat.eqb_eq in E; subst m.
      rewrite app_nth2 by lia; rewrite Hf, Nat.sub_diag, Hp; reflexivity.
    + apply Nat.eqb_neq in E.
      destruct (Nat.lt_ge_cases m l) as [Hm | Hm].
      * rewrite app_nth1 by lia; rewrite nth_firstn.
        apply Nat.ltb_lt in Hm; rewrite Hm; reflexivity.
      * rewrite app_nth2 by lia; rewrite Hf.
        destruct (m - l) as [|k] eqn:Ek; [lia|]; simpl.
        replace r with (skipn (S l) h)
          by (rewrite <- (skipn_skipn 1 l), Hs; reflexivity).
        rewrite nth_skipn; f_equal; lia.
Qed.

Lemma visit_spec (gu : string) (h : heap) (out : list nat) (l : nat) :
  l < List.length h ->
  snd (visit gu (h, out) l) = out ++ [l]
  /\ List.length (fst (visit gu (h, out) l)) = List.length h
  /\ forall m, load (fst (visit gu (h, out) l)) m
               = if Nat.eqb m l then finish gu (load h l) else load h m.
Proof.
  intro Hl; unfold visit.
  set (b := String.append gu (String.append (substr_from 4 (guid (load h l))) "/")).
  destruct (set_baseUrl_spec h l b Hl) as [L1 E1].
  assert (Hl1 : l < List.length (set_baseUrl h l b)) by lia.
  assert (El : load (set_baseUrl h l b) l = with_base (load h l) b)
    by (rewrite E1, Nat.eqb_refl; reflexivity).
  cbv beta iota zeta; rewrite El; cbn [onlyofficeScheme baseUrl with_base].
  destruct (onlyofficeScheme (load h l)) eqn:Ho; cbn [fst snd].
  - destruct (set_baseUrl_spec (set_baseUrl h l b) l (String.append "onlyoffice://plugin/" b) Hl1)
      as [L2 E2].
    split; [reflexivity|]; split; [lia|].
    intro m; rewrite E2, El, E1.
    destruct (Nat.eqb m l); [|reflexivity].
    unfold finish, with_base; simpl; rewrite Ho; reflexivity.
  - split; [reflexivity|]; split; [exact L1|].
    intro m; rewrite E1; destruct (Nat.eqb m l); [|reflexivity].
    unfold finish, with_base; rewrite Ho; reflexivity.
Qed.

Lemma fold_visit (gu : string) (n : nat) :
  forall (a : nat) (h : heap) (out : list nat),
  a + n <= List.length h ->
  snd (fold_left (visit gu) (seq a n) (h, out)) = out ++ seq a n
  /\ List.length (fst (fold_left (visit gu) (seq a n) (h, out))) = List.length h
  /\ forall m, load (fst (fold_left (visit gu) (seq a n) (h, out))) m
               = if Nat.leb a m && Nat.ltb m (a + n) then finish gu (load h m) else load h m.
Proof.
  induction n as [|n IH]; intros a h out Hn.
  - simpl; split; [rewrite app_nil_r; reflexivity|]; split; [reflexivity|].
    intro m; destruct (Nat.leb a m) eqn:E1, (Nat.ltb m (a + 0)) eqn:E2; try reflexivity.
    apply Nat.leb_le in E1; apply Nat.ltb_lt in E2; lia.
  - cbn [seq fold_left].
    destruct (visit_spec gu h out a ltac:(lia)) as (S1 & L1 & E1).
    destruct (visit gu (h, out) a) as [h1 out1] eqn:Ev; simpl in S1, L1, E1.
    destruct (IH (S a) h1 out1 ltac:(lia)) as (S2 & L2 & E2).
    split; [rewrite S2, S1, <- app_assoc; reflexivity|].
    split; [lia|].
    intro m; rewrite E2, E1.
    destruct (Nat.eqb_spec m a); destruct (Nat.leb_spec (S a) m); destruct (Nat.leb_spec a m);
      destruct (Nat.ltb_spec m (S a + n)); destruct (Nat.ltb_spec m (a + S n));
      simpl; subst; try lia; reflexivity.
Qed.

Lemma firstn_len_app (l1 r : list nat) : firstn (List.length l1) (l1 ++ r) = l1.
Proof. induction l1 as [|x l1 IH]; simpl; [reflexivity | rewrite IH; reflexivity]. Qed.

Lemma skipn_len_app (l1 r : list nat) : skipn (List.length l1) (l1 ++ r) = r.
Proof. induction l1 as [|x l1 IH]; simpl; [reflexivity | exact IH]. Qed.

Lemma prune_spec (h : heap) (fuel : nat) :
  forall (i : nat) (out : list nat),
  List.length out - i <= fuel ->
  prune h fuel i out = firstn i out ++ filter (fun l => kept (load h l)) (skipn i out).
Proof.
  induction fuel as [|f IH]; intros i out Hf.
  - simpl; rewrite skipn_all2 by lia; rewrite firstn_all2 by lia; rewrite app_nil_r; reflexivity.
  - simpl.
    destruct (nth_error out i) as [l|] eqn:Hn.
    + destruct (nth_error_split out i Hn) as (l1 & l2 & Eo & Hl1); subst out i.
      rewrite firstn_len_app, skipn_len_app.
      assert (R : remove_at (List.length l1) (l1 ++ l :: l2) = l1 ++ l2).
      { unfold remove_at; rewrite firstn_len_app.
        replace (S (List.length l1)) with (List.length (l1 ++ [l])) by (rewrite length_app; simpl; lia).
        change (l1 ++ l :: l2) with (l1 ++ [l] ++ l2).
        rewrite app_assoc, skipn_len_app; reflexivity. }
      rewrite length_app in Hf; simpl in Hf.
      assert (Drop : prune h f (List.length l1) (remove_at (List.length l1) (l1 ++ l :: l2))
                     = l1 ++ filter (fun l => kept (load h l)) l2).
      { rewrite R, IH by (rewrite length_app; lia).
        rewrite firstn_len_app, skipn_len_app; reflexivity. }
      cbn [filter].
      destruct (variations (load h l)) as [vs|] eqn:Ev.
      * assert (Hk : kept (load h l) = negb (existsb is_desktop vs))
          by (unfold kept; rewrite Ev; reflexivity).
        rewrite Hk; destruct (existsb is_desktop vs); simpl; [exact Drop|].
        rewrite IH by (rewrite length_app; simpl; lia).
        replace (S (List.length l1)) with (List.length (l1 ++ [l])) by (rewrite length_app; simpl; lia).
        change (l1 ++ l :: l2) with (l1 ++ [l] ++ l2).
        rewrite app_assoc, firstn_len_app, skipn_len_app, <- app_assoc; reflexivity.
      * assert (Hk : kept (load h l) = false) by (unfold kept; rewrite Ev; reflexivity).
        rewrite Hk; exact Drop.
    + apply nth_error_None in Hn.
      rewrite skipn_all2 by lia; rewrite firstn_all2 by lia; rewrite app_nil_r; reflexivity.
Qed.

Lemma alloc_groups_heap (h : heap) (gs : list (string * list plugin)) :
  fst (alloc_groups h gs) = h ++ List.concat (map snd gs).
Proof.
  revert h; induction gs as [|[u ps] r IH]; intro h; simpl; [rewrite app_nil_r; reflexivity|].
  destruct (alloc_groups (h ++ ps) r) as [h' r'] eqn:E; simpl.
  specialize (IH (h ++ ps)); rewrite E in IH; simpl in IH; rewrite IH, app_assoc; reflexivity.
Qed.

Lemma alloc_groups_cons (h : heap) (u : string) (ps : list plugin) (r : list (string * list plugin)) :
  snd (alloc_groups h ((u, ps) :: r))
  = mkGroup u (seq (List.length h) (List.length ps)) :: snd (alloc_groups (h ++ ps) r).
Proof. simpl; destruct (alloc_groups (h ++ ps) r); reflexivity. Qed.

Lemma map_nth_seq (pre l post : list plugin) :
  map (fun m => nth m (pre ++ l ++ post) plugin_dummy) (seq (List.length pre) (List.length l)) = l.
Proof.
  revert pre; induction l as [|x l IH]; intro pre; [reflexivity|].
  simpl; rewrite app_nth2 by lia; rewrite Nat.sub_diag; simpl.
  f_equal.
  specialize (IH (pre ++ [x])); rewrite length_app, Nat.add_1_r, <- app_assoc in IH; exact IH.
Qed.

Lemma filter_map_load (f : plugin -> bool) (h : heap) (l : list nat) :
  map (load h) (filter (fun m => f (load h m)) l) = filter f (map (load h) l).
Proof.
  induction l as [|x l IH]; simpl; [reflexivity|].
  destruct (f (load h x)); simpl; rewrite IH; reflexivity.
Qed.

Lemma kept_finish (gu : string) (p : plugin) : kept (finish gu p) = kept p.
Proof. reflexivity. Qed.

Lemma filter_map_finish (gu : string) (ps : list plugin) :
  filter kept (map (finish gu) ps) = map (finish gu) (filter kept ps).
Proof.
  induction ps as [|p ps IH]; simpl; [reflexivity|].
  rewrite kept_finish; destruct (kept p); simpl; rewrite IH; reflexivity.
Qed.

End PluginsFacts.

Module SignaturesFacts.
Import Signatures.

(** The lines built for the entries [l], the first one with id [i]. *)
Fixpoint lines_from (req : list string) (i : nat) (l : list sign_json) : list sig_line :=
  match l with
  | [] => []
  | s :: r => make_line req i s :: lines_from req (S i) r
  end.

Lemma sign_loop_spec (req : list string) (data : list sign_json) (fuel : nat) :
  forall (i : nat) (acc : list sig_line),
  i <= List.length data ->
  sign_loop req data i fuel acc
  = (acc ++ lines_from req i (firstn fuel (skipn i data)), Nat.ltb (List.length data) (i + fuel)).
Proof.
  induction fuel as [|f IH]; intros i acc Hi; simpl.
  - rewrite app_nil_r, Nat.add_0_r; f_equal; symmetry; apply Nat.ltb_ge; exact Hi.
  - destruct (nth_error data i) as [s|] eqn:Hn.
    + assert (Hs : skipn i data = s :: skipn (S i) data).
      { clear IH Hi; revert i Hn; induction data as [|x d IHd]; intros [|i] Hn; simpl in *;
          try discriminate; [injection Hn as ->; reflexivity | apply IHd; exact Hn]. }
      assert (Hl : i < List.length data) by (apply nth_error_Some; congruence).
      rewrite IH by lia; rewrite Hs; simpl.
      rewrite <- app_assoc, Nat.add_succ_r; reflexivity.
    + apply nth_error_None in Hn.
      rewrite skipn_all2 by lia; simpl; rewrite app_nil_r; f_equal.
      symmetry; apply Nat.ltb_lt; lia.
Qed.

Lemma lines_from_length (req : list string) (l : list sign_json) :
  forall i, List.length (lines_from req i l) = List.length l.
Proof. induction l as [|s l IH]; intro i; simpl; [reflexivity | rewrite IH; reflexivity]. Qed.

Lemma lines_from_nth (req : list string) (l : list sign_json) :
  forall i k s, nth_error l k = Some s -> nth_error (lines_from req i l) k = Some (make_line req (i + k) s).
Proof.
  induction l as [|x l IH]; intros i k s H; destruct k as [|k]; simpl in *; try discriminate.
  - injection H as ->; rewrite Nat.add_0_r; reflexivity.
  - rewrite (IH (S i) k s H); f_equal; f_equal; lia.
Qed.

End SignaturesFacts.

Module SignRequestFacts.
Import SignRequest.

(** The width and height after the defaulting at the top of
    [asc_LocalRequestSign]. *)
Definition eff_width (width : option Z) (isView : bool) : option Z :=
  if negb isView && match width with None => true | Some _ => false end then Some 100%Z else width.

Definition eff_height (width height : option Z) (isView : bool) : option Z :=
  if negb isView && match width with None => true | Some _ => false end then Some 100%Z else height.

Lemma request_unfold (ed : editor) (q : option pending) (guid : string)
  (width height : option Z) (isView : bool) :
  asc_LocalRequestSign ed q guid width height isView
  = if restricted ed then (q, [])
    else match find_sign (signatures ed) guid with
         | Some s => (q, if isView then [ViewCertificate (Signatures.lid s)] else [])
         | None =>
             if negb (modified ed)
             then (q, [SignatureClick guid (eff_width width isView) (eff_height width height isView)
                         (Signatures.asc_IsVisibleSign (all_signatures ed) guid)])
             else (Some (mkPending guid (eff_width width isView) (eff_height width height isView)),
                   [SaveQuestion])
         end.
Proof.
  unfold asc_LocalRequestSign, eff_width, eff_height.
  destruct (negb isView && match width with None => true | Some _ => false end); reflexivity.
Qed.

End SignRequestFacts.

Module FontsFacts.
Import Fonts.

Definition is_open (f : nat) (e : feffect) : bool :=
  match e with XhrOpen g _ => Nat.eqb g f | _ => false end.

Definition is_set (f : nat) (e : feffect) : bool :=
  match e with SetStreamIndex g _ => Nat.eqb g f | _ => false end.

(** Requests sent for font [f] in a log. *)
Definition count_open (f : nat) (l : list feffect) : nat := List.length (filter (is_open f) l).

(** Streams installed for font [f] in a log. *)
Definition count_set (f : nat) (l : list feffect) : nat := List.length (filter (is_set f) l).

(** Pending requests for font [f]. *)
Definition count_pending (f : nat) (xs : list nat) : nat := List.length (filter (Nat.eqb f) xs).

Definition stream_font (st : stream) : nat :=
  match st with FontStream f => f | FontData3 f => f end.

(** Every logged [SetStreamIndex f idx] designates a stream of font [f]. *)
Definition streams_ok (s : fstate) : Prop :=
  forall f idx, In (SetStreamIndex f idx) (flog s) ->
  exists st, nth_error (g_fonts_streams s) idx = Some st /\ stream_font st = f.

Lemma count_app {A} (p : A -> bool) (l1 l2 : list A) :
  List.length (filter p (l1 ++ l2)) = List.length (filter p l1) + List.length (filter p l2).
Proof. rewrite filter_app, length_app; reflexivity. Qed.

Lemma nth_update_font (fs : list font) (f g : nat) (fo : font) :
  nth g (update_font fs f fo) font_dummy
  = if Nat.eqb g f && Nat.ltb f (List.length fs) then fo else nth g fs font_dummy.
Proof.
  unfold update_font.
  destruct (Nat.ltb_spec f (List.length fs)) as [Hf|Hf].
  - destruct (skipn f fs) as [|x r] eqn:Hs.
    { pose proof (length_skipn f fs) as H; rewrite Hs in H; simpl in H; lia. }
    assert (Lf : List.length (firstn f fs) = f) by (rewrite length_firstn; lia).
    destruct (Nat.eqb_spec g f) as [->|Hne]; simpl.
    + rewrite app_nth2 by lia; rewrite Lf, Nat.sub_diag; reflexivity.
    + destruct (Nat.lt_ge_cases g f) as [Hg|Hg].
      * rewrite app_nth1 by lia; rewrite nth_firstn; apply Nat.ltb_lt in Hg; rewrite Hg; reflexivity.
      * rewrite app_nth2 by lia; rewrite Lf.
        destruct (g - f) as [|k] eqn:Ek; [lia|]; simpl.
        replace r with (skipn (S f) fs) by (rewrite <- (skipn_skipn 1 f), Hs; reflexivity).
        rewrite nth_skipn; f_equal; lia.
  - rewrite skipn_all2 by lia; rewrite app_nil_r, firstn_all2 by lia.
    rewrite andb_false_r; reflexivity.
Qed.

Lemma get_font_update (fs : list font) (f g : nat) (fo : font) ss xs lg :
  get_font (mkFState (update_font fs f fo) ss xs lg) g
  = if Nat.eqb g f && Nat.ltb f (List.length fs) then fo else nth g fs font_dummy.
Proof. apply nth_update_font. Qed.

Lemma remove_nth_count (xs : list nat) (j f g : nat) :
  nth_error xs j = Some f ->
  count_pending g xs = count_pending g (remove_nth j xs) + (if Nat.eqb g f then 1 else 0).
Proof.
  intro Hn; destruct (nth_error_split xs j Hn) as (l1 & l2 & E & L); subst xs j.
  assert (R : remove_nth (List.length l1) (l1 ++ f :: l2) = l1 ++ l2).
  { unfold remove_nth; clear Hn; induction l1 as [|x l1 IH]; [reflexivity|]. cbn [List.length firstn app]; change (skipn (S (S (List.length l1))) (x :: l1 ++ f :: l2)) with (skipn (S (List.length l1)) (l1 ++ f :: l2)); rewrite IH; reflexivity. }
  rewrite R; unfold count_pending; rewrite !filter_app, !length_app; simpl.
  destruct (Nat.eqb g f); simpl; lia.
Qed.

Lemma nth_error_app_last {A} (l : list A) (x : A) : nth_error (l ++ [x]) (List.length l) = Some x.
Proof. rewrite nth_error_app2, Nat.sub_diag by lia; reflexivity. Qed.

(** The request counter: requests already sent plus one if the font can
    still send one. *)
Definition budget (f : nat) (s : fstate) : nat :=
  count_open f (flog s) + (if Z.eqb (Status (get_font s f)) (-1) then 1 else 0).

Lemma fstep_budget (f : nat) (s : fstate) (e : fevent) : budget f (fstep s e) <= budget f s.
Proof.
  unfold budget; destruct e as [g cb | j st r]; simpl.
  - unfold LoadFontAsync; simpl.
    destruct (Z.eqb (Status (get_font s g)) (-1)) eqn:Es; simpl.
    + rewrite get_font_update; unfold count_open; rewrite count_app; simpl.
      destruct (Nat.eqb_spec f g) as [->|Hne]; simpl.
      * rewrite Nat.eqb_refl; destruct (Nat.ltb g (List.length (fonts s))) eqn:Hl; simpl.
        -- rewrite Es; lia.
        -- unfold get_font in Es |- *; rewrite nth_overflow in Es by (apply Nat.ltb_ge; exact Hl).
           discriminate.
      * assert (E1 : Nat.eqb f g = false) by (apply Nat.eqb_neq; exact Hne).
        assert (E2 : Nat.eqb g f = false) by (apply Nat.eqb_neq; congruence).
        rewrite ?E1, ?E2; simpl; unfold get_font, count_open; lia.
    + rewrite get_font_update; simpl.
      destruct (Nat.eqb f g && Nat.ltb g (List.length (fonts s))) eqn:Hc; simpl.
      * apply andb_true_iff in Hc as [Hc _]; apply Nat.eqb_eq in Hc; subst f.
        rewrite Es; lia.
      * unfold get_font; lia.
  - unfold onload.
    destruct (nth_error (xhrs s) j) as [g|]; [|lia].
    destruct (negb (Z.eqb st 200)); simpl.
    + rewrite get_font_update; destruct (Nat.eqb f g && _); simpl; unfold get_font; lia.
    + rewrite get_font_update; unfold count_open; rewrite !count_app; simpl.
      destruct (Nat.eqb f g && _); simpl.
      * destruct (callback (get_font s g)), (externalCallback (get_font s g)); simpl; lia.
      * unfold get_font;
        destruct (callback (nth g (fonts s) font_dummy)), (externalCallback (nth g (fonts s) font_dummy));
        simpl; lia.
Qed.

Lemma frun_budget (f : nat) (evs : list fevent) :
  forall s, budget f (frun s evs) <= budget f s.
Proof.
  induction evs as [|e evs IH]; intro s; [apply le_n|].
  change (frun s (e :: evs)) with (frun (fstep s e) evs).
  eapply Nat.le_trans; [apply IH | apply fstep_budget].
Qed.

(** Streams installed plus requests pending never exceed the requests sent. *)
Definition accounted (f : nat) (s : fstate) : Prop :=
  count_set f (flog s) + count_pending f (xhrs s) <= count_open f (flog s).

Lemma fstep_accounted (f : nat) (s : fstate) (e : fevent) :
  accounted f s -> accounted f (fstep s e).
Proof.
  unfold accounted; intro H; destruct e as [g cb | j st r]; simpl.
  - unfold LoadFontAsync; simpl.
    destruct (Z.eqb (Status (get_font s g)) (-1)); simpl; [|exact H].
    unfold count_set, count_open, count_pending in *; rewrite !count_app; simpl.
    repeat match goal with |- context [Nat.eqb ?a ?b] => destruct (Nat.eqb_spec a b) end;
      simpl; lia.
  - unfold onload.
    destruct (nth_error (xhrs s) j) as [g|] eqn:Hj; [|exact H].
    pose proof (remove_nth_count (xhrs s) j g f Hj) as Hc.
    destruct (negb (Z.eqb st 200)); simpl.
    + lia.
    + unfold count_set, count_open in *; rewrite !count_app in *; simpl.
      destruct (callback (get_font s g)), (externalCallback (get_font s g)); simpl;
      repeat match goal with |- context [Nat.eqb ?a ?b] => destruct (Nat.eqb_spec a b) end;
      simpl; try lia; subst g; rewrite Nat.eqb_refl in Hc; lia.
Qed.

Lemma frun_accounted (f : nat) (evs : list fevent) :
  forall s, accounted f s -> accounted f (frun s evs).
Proof.
  induction evs as [|e evs IH]; intros s H; [exact H|].
  change (frun s (e :: evs)) with (frun (fstep s e) evs).
  apply IH, fstep_accounted, H.
Qed.

Lemma fstep_streams_ok (s : fstate) (e : fevent) : streams_ok s -> streams_ok (fstep s e).
Proof.
  unfold streams_ok; intros H f idx; destruct e as [g cb | j st r]; simpl.
  - unfold LoadFontAsync; simpl.
    destruct (Z.eqb (Status (get_font s g)) (-1)); simpl; [|exact (H f idx)].
    intro Hin; apply in_app_or in Hin as [Hin|Hin]; [exact (H f idx Hin)|].
    destruct Hin as [Hin|[]]; discriminate.
  - unfold onload.
    destruct (nth_error (xhrs s) j) as [g|]; [|exact (H f idx)].
    destruct (negb (Z.eqb st 200)); simpl; [exact (H f idx)|].
    intro Hin; apply in_app_or in Hin as [Hin|Hin].
    + destruct (H f idx Hin) as (x & Hx & Fx); exists x; split; [|exact Fx].
      rewrite nth_error_app1; [exact Hx|].
      apply nth_error_Some; congruence.
    + simpl in Hin; destruct Hin as [Hin|Hin].
      * injection Hin as <- <-.
        eexists; split; [apply nth_error_app_last|].
        destruct r; reflexivity.
      * apply in_app_or in Hin as [Hin|Hin];
        [destruct (callback (get_font s g)) | destruct (externalCallback (get_font s g))];
        simpl in Hin; intuition discriminate.
Qed.

Lemma frun_streams_ok (evs : list fevent) : forall s, streams_ok s -> streams_ok (frun s evs).
Proof.
  induction evs as [|e evs IH]; intros s H; [exact H|].
  change (frun s (e :: evs)) with (frun (fstep s e) evs).
  apply IH, fstep_streams_ok, H.
Qed.

End FontsFacts.

Module LocalNameFacts.
Import StringFacts SplitJoinFacts.

Lemma lastIndexOf_aux_none (c : ascii) (s : string) :
  forall i acc, count_char c s = 0 -> lastIndexOf_aux c s i acc = acc.
Proof.
  induction s as [|d r IH]; intros i acc H; simpl in *; [reflexivity|].
  rewrite Ascii.eqb_sym; destruct (Ascii.eqb d c); [lia|].
  apply IH; exact H.
Qed.

Lemma lastIndexOf_aux_last (c : ascii) (a b : string) :
  count_char c b = 0 ->
  forall i acc, lastIndexOf_aux c (String.append a (String c b)) i acc
                = (i + Z.of_nat (String.length a))%Z.
Proof.
  intro Hb; induction a as [|d r IH]; intros i acc; simpl.
  - rewrite Ascii.eqb_refl, lastIndexOf_aux_none by exact Hb; lia.
  - rewrite IH; lia.
Qed.

(** A string has no [c], or a last [c]. *)
Lemma last_char_split (c : ascii) (s : string) :
  count_char c s = 0 \/ exists a b, s = String.append a (String c b) /\ count_char c b = 0.
Proof.
  induction s as [|d r IH]; simpl; [left; reflexivity|].
  destruct IH as [H|(a & b & E & H)].
  - destruct (Ascii.eqb d c) eqn:Ed.
    + right; exists "", r; apply Ascii.eqb_eq in Ed; subst d; split; [reflexivity | exact H].
    + left; rewrite H; reflexivity.
  - right; exists (String d a), b; subst r; split; [reflexivity | exact H].
Qed.

Lemma substring_append (a s : string) (n m : nat) :
  String.substring (String.length a + n) m (String.append a s) = String.substring n m s.
Proof. induction a as [|d r IH]; simpl; [reflexivity | exact IH]. Qed.

Lemma substring_from_last (a b : string) (c : ascii) :
  substring_from (Z.of_nat (String.length a) + 1) (String.append a (String c b)) = b.
Proof.
  unfold substring_from.
  replace (Z.to_nat (Z.of_nat (String.length a) + 1)) with (String.length a + 1)%nat by lia.
  rewrite length_append; simpl.
  replace (String.length a + S (String.length b) - (String.length a + 1))%nat
    with (String.length b) by lia.
  rewrite substring_append; simpl; apply substring_all.
Qed.

Lemma length_last (a b : string) (c : ascii) :
  String.length (String.append a (String c b)) = (String.length a + S (String.length b))%nat.
Proof. rewrite length_append; reflexivity. Qed.

End LocalNameFacts.

Module DragDropFacts.
Import DragDrop.

(** The first entry of [files] the loop does not skip: an image file
    other than [""]. *)
Fixpoint first_image (d : drop_env) (files : list string) : option string :=
  match files with
  | [] => None
  | f :: r => if IsImageFile d f && negb (String.eqb f "") then Some f else first_image d r
  end.

(** What the loop pushes for the file it stops at. *)
Definition pushed (d : drop_env) (f : string) : list (option string) :=
  match LocalFileGetImageUrl d f with
  | Some resImage =>
      if String.eqb resImage "" then [] else [DocumentUrls.getImageUrl (urls d) resImage]
  | None => []
  end.

Lemma image_loop_spec (d : drop_env) (files : list string) :
  forall acc, image_loop d files acc
              = acc ++ match first_image d files with Some f => pushed d f | None => [] end.
Proof.
  induction files as [|f r IH]; intro acc; simpl; [rewrite app_nil_r; reflexivity|].
  destruct (IsImageFile d f); simpl; [|apply IH].
  destruct (String.eqb f ""); simpl; [apply IH|].
  unfold pushed; destruct (LocalFileGetImageUrl d f) as [x|]; [|rewrite app_nil_r; reflexivity].
  destruct (String.eqb x ""); [rewrite app_nil_r|]; reflexivity.
Qed.

Lemma first_image_nonempty (d : drop_env) (files : list string) (f : string) :
  first_image d files = Some f -> Nat.eqb (List.length files) 0 = false.
Proof. destruct files; simpl; [discriminate | reflexivity]. Qed.

End DragDropFacts.

Module PathWatcherBarFacts.
Import PathWatcher.

Section Facts.

Variable get : Z -> jsval -> string -> jsval.
Variable pathStr : string.
Variable startTime : Z.
Variable maxWait : Z.

(** The watch ended in a degrade. *)
Definition degraded (s : state) : bool :=
  match ph s with
  | TimedOut _ | Failed _ _ => true
  | _ => false
  end.

Lemma resolve_bar (t : Z) (rest : list string) (idx : nat) (obj : jsval) (b : barrier) :
  degraded (resolve get pathStr t rest idx obj b) = false ->
  bar (resolve get pathStr t rest idx obj b) = b.
Proof.
  revert idx obj; induction rest as [|prop rest IH]; intros idx obj; simpl; [reflexivity|].
  destruct (truthy obj && is_defined (get t obj prop)); [apply IH|].
  destruct (truthy obj); simpl; [reflexivity | discriminate].
Qed.

Lemma tick_bar (s : state) :
  degraded (tick get pathStr startTime maxWait s) = false ->
  bar (tick get pathStr startTime maxWait s) = bar s.
Proof.
  unfold tick; destruct (ph s) as [idx obj prop rest| | |]; try reflexivity.
  destruct (timer s) as [tau|]; [|reflexivity].
  destruct (Z.ltb maxWait (tau - startTime)); [discriminate|].
  destruct (is_defined (get tau obj prop)); [apply resolve_bar | reflexivity].
Qed.

Lemma tick_degraded (s : state) :
  degraded s = true -> tick get pathStr startTime maxWait s = s.
Proof. unfold degraded, tick; destruct (ph s); try reflexivity; discriminate. Qed.

Lemma run_bar (n : nat) (s : state) :
  degraded (run get pathStr startTime maxWait n s) = false ->
  bar (run get pathStr startTime maxWait n s) = bar s.
Proof.
  revert s; induction n as [|n IH]; intros s H; [reflexivity|].
  simpl in H |- *.
  destruct (degraded (tick get pathStr startTime maxWait s)) eqn:Hd.
  - exfalso; assert (Hr : forall m u, degraded u = true -> run get pathStr startTime maxWait m u = u).
    { induction m as [|m IHm]; intros u Hu; [reflexivity|]; simpl; rewrite tick_degraded by exact Hu; apply IHm, Hu. }
    rewrite Hr in H by exact Hd; congruence.
  - rewrite IH by exact H; apply tick_bar, Hd.
Qed.

End Facts.

End PathWatcherBarFacts.

Module DocumentUrlsMoreFacts.
Import StringFacts.

Lemma substring_prefix (t l : string) :
  String.substring 0 (String.length t) l = t -> exists x, l = String.append t x.
Proof.
  revert l; induction t as [|c t IH]; intros l H; [exists l; reflexivity|].
  destruct l as [|d l]; simpl in H; [discriminate|].
  injection H as Hc Ht; subst d.
  destruct (IH l Ht) as (x & ->); exists x; reflexivity.
Qed.

Lemma substring_append_prefix (t x : string) :
  String.substring 0 (String.length t) (String.append t x) = t.
Proof. induction t as [|c t IH]; simpl; [destruct x; reflexivity | rewrite IH; reflexivity]. Qed.

Lemma starts_theme (p : string) :
  DocumentUrls.isThemeUrl (Some p) = true -> starts_at0 "theme" p = true.
Proof. unfold DocumentUrls.isThemeUrl; intro H; apply andb_true_iff in H; tauto. Qed.

End DocumentUrlsMoreFacts.

(* ===================================================================== *)
(** * Claims *)
(* ===================================================================== *)

(** C1: for every sequence of the three override routines marking their
    flag ready (any order, repetitions allowed), starting from the initial
    barrier, [_commonJsReady] moves from pending to fulfilled exactly once
    when the sequence sets all three flags (never otherwise), and the call
    that does it is the one after which all three flags are first set; no
    other call, in particular no redundant one, fires it. *)
Theorem C1_barrier_fires_once (evs : list flag) :
  count_true (fires barrier_init evs) = (if all_set evs then 1 else 0)
  /\ (forall i : nat,
        nth_error (fires barrier_init evs) i = Some true <->
        all_set (firstn (S i) evs) = true /\ all_set (firstn i evs) = false).
Proof.
  split.
  - rewrite (BarrierFacts.count_fires evs barrier_init BarrierFacts.init_consistent).
    rewrite BarrierFacts.ready_from_init; simpl.
    destruct (all_set evs); reflexivity.
  - intro i; rewrite BarrierFacts.fires_nth.
    destruct (Nat.ltb i (List.length evs)) eqn:Hi.
    + unfold fired; rewrite !BarrierFacts.ready_from_init.
      destruct (all_set (firstn (S i) evs)), (all_set (firstn i evs));
        split; intro H; try discriminate; try (destruct H; discriminate); auto.
    + apply Nat.ltb_ge in Hi.
      rewrite (firstn_all2 (n := S i)) by lia; rewrite (firstn_all2 (n := i)) by lia.
      split; [discriminate|]; intros [H1 H2]; congruence.
Qed.

(** C2: whatever sequence of entry-point calls, readiness and microtask
    runs a page goes through, the Resolving continuation runs at most once;
    a call made once the guard is set only appends the duplicate-call
    warning; the first call sets the guard in the same step in which it
    registers the (single) continuation; and the guard is never reset. *)
Theorem C2_entry_point_at_most_once (evs : list page_event) (a : call_args) :
  let s := run_page orch_init evs in
  List.length (oran s) <= 1
  /\ (_documentLoadStarted s = true ->
      page_step s (ECall a) =
      mkOrch true (oready s) (owaiting s) (omicro s) (oran s) (olog s ++ [msg_duplicate]))
  /\ (_documentLoadStarted s = false ->
      _documentLoadStarted (page_step s (ECall a)) = true
      /\ owaiting (page_step s (ECall a)) ++ omicro (page_step s (ECall a)) = [a]
      /\ oran (page_step s (ECall a)) = [])
  /\ (forall evs' : list page_event,
      _documentLoadStarted s = true -> _documentLoadStarted (run_page s evs') = true).
Proof.
  intro s.
  pose proof (GuardFacts.run_guard_inv evs orch_init GuardFacts.init_inv) as H.
  fold s in H; unfold GuardFacts.guard_inv, GuardFacts.continuations in H.
  split; [|split; [|split]].
  - destruct (_documentLoadStarted s); lia.
  - intro Hs; simpl; unfold DesktopOfflineAppDocumentEndLoad; rewrite Hs.
    destruct s; simpl in *; subst; reflexivity.
  - intro Hs; rewrite Hs in H; simpl; unfold DesktopOfflineAppDocumentEndLoad; rewrite Hs.
    destruct s as [st rd w m r l]; simpl in *.
    destruct w, m, r; simpl in H; try lia.
    destruct rd; simpl; auto.
  - intros evs' Hs; apply GuardFacts.run_started, Hs.
Qed.

(** C3 (counterexample): with no override base URL, the Windows path
    ["C:\docs\report.xlsx"] is not turned into a file URI: the scheme test
    matches ["C:"], and the locator is used unchanged, without the
    [file://] prefix. *)
Lemma C3_drive_path_counterexample :
  hasScheme "C:\docs\report.xlsx" = true
  /\ resolve_base_url None "C:\docs\report.xlsx" = "C:\docs\report.xlsx"
  /\ String.prefix "file://" (resolve_base_url None "C:\docs\report.xlsx") = false.
Proof. split; [|split]; reflexivity. Qed.

Lemma indexOf_slash_zero (u : string) :
  indexOf "/" u = Some 0 <-> String.prefix "/" u = true.
Proof.
  unfold indexOf; destruct u as [|c r]; [simpl; split; discriminate|].
  change (String.index 0 "/" (String c r)) with
    (if String.prefix "/" (String c r) then Some 0
     else match String.index 0 "/" r with Some n => Some (S n) | None => None end).
  destruct (String.prefix "/" (String c r)); [split; reflexivity|].
  destruct (String.index 0 "/" r); split; discriminate.
Qed.

(** C3 (amended): with no override base URL (undefined or empty), a
    locator that [/^[a-zA-Z][a-zA-Z0-9+.-]*:/] does not match resolves to
    ["file://"] followed by the locator, with one ["/"] put in front when
    it does not already start with ["/"]; a locator the test matches is
    used unchanged, which is the case of ["C:\docs\report.xlsx"]. *)
Theorem C3_base_url_no_scheme (override : option string) (u : string) :
  (override = None \/ override = Some "") ->
  resolve_base_url override u =
  (if hasScheme u then u
   else String.append "file://" (if String.prefix "/" u then u else String.append "/" u))
  /\ resolve_base_url override "C:\docs\report.xlsx" = "C:\docs\report.xlsx".
Proof.
  intros Ho.
  assert (E : forall v, resolve_base_url override v = normalize_local_url v)
    by (intro v; destruct Ho as [-> | ->]; reflexivity).
  rewrite !E; split; [|reflexivity].
  unfold normalize_local_url; destruct (hasScheme u); [reflexivity|].
  destruct (String.prefix "/" u) eqn:Hp.
  - apply indexOf_slash_zero in Hp; rewrite Hp; reflexivity.
  - destruct (indexOf "/" u) as [[|k]|] eqn:Hi; try reflexivity.
    apply indexOf_slash_zero in Hi; congruence.
Qed.

(** C5: once the editor is found, an empty payload, or a
    [binary_content://] token whose host lookup returns nothing, ends the
    Resolving sequence with exactly one [asc_onError] event, carrying
    [ConvertationOpenError] at [Critical] level, as its last step, and
    no decode or document open happens. *)
Theorem C5_empty_or_unresolved_payload (h : host) (_url _data : string) (_len : Z) :
  editor_present h = true ->
  (_data = "" \/ (indexOf "binary_content://" _data = Some 0 /\ opened_file h _data = None)) ->
  List.length (filter is_on_error (resolving h _url _data _len)) = 1
  /\ last (resolving h _url _data _len) (LogInfo "") = open_error
  /\ existsb decodes_or_opens (resolving h _url _data _len) = false.
Proof.
  intros He Hd; unfold resolving; rewrite He; simpl negb; cbv iota.
  destruct Hd as [-> | [Hi Ho]].
  - simpl; auto.
  - assert (Hne : String.eqb _data "" = false)
      by (destruct _data; [discriminate Hi | reflexivity]).
    rewrite Hne, Hi, Ho; simpl; auto.
Qed.

(** C6: when [window.AscCommon] is present (truthy) but its
    [baseEditorsApi] is not (falsy), the synchronous start-up code sets all
    three flags, fulfils [_commonJsReady] and calls [waitForPath] for none
    of the override paths. *)
Theorem C6_fast_path_completes_at_startup (e : sdk_env) :
  truthy (win_AscCommon e) = true ->
  truthy (AscCommon_baseEditorsApi e) = false ->
  all_ready (bstatus (fst (fast_path_detect e))) = true
  /\ bready (fst (fast_path_detect e)) = PFulfilled
  /\ snd (fast_path_detect e) = [].
Proof.
  intros H1 H2; unfold fast_path_detect, isMinifiedSdk; rewrite H1, H2; simpl.
  split; [|split]; reflexivity.
Qed.

(** C10: the script's global writes.  Each [window] entry point of the
    layer is written only when the minified-SDK signature is absent; with
    the signature no entry point (and not [AscCommon.getBinaryArray]) is
    written, nothing throws, and [_commonJsReady] is created and, by the
    fast path, fulfilled.  Without the signature,
    [AscCommon.getBinaryArray] is written unless the block throws first
    (at line 951 when [window.AscCommon] is falsy).  The block-scoped
    helper functions are never globals. *)
Theorem C10_minified_leaves_entry_points_undefined (e : sdk_env) (setup_throws : bool) :
  (forall n : string, In n layer_entry_points ->
     global_after (script_writes e setup_throws) n
     = if isMinifiedSdk e then None else Some GFunction)
  /\ global_after (script_writes e setup_throws) "AscCommon.getBinaryArray"
     = (if isMinifiedSdk e || script_throws e setup_throws then None else Some GFunction)
  /\ (isMinifiedSdk e = true -> script_throws e setup_throws = false)
  /\ (truthy (win_AscCommon e) = false -> script_throws e setup_throws = true)
  /\ global_after (script_writes e setup_throws) "DesktopOfflineUpdateLocalName" = None
  /\ global_after (script_writes e setup_throws) "getBinaryArray" = None
  /\ global_after (script_writes e setup_throws) "_commonJsReady" = Some GPromise
  /\ (isMinifiedSdk e = true -> bready (fst (fast_path_detect e)) = PFulfilled).
Proof.
  split; [|split; [|split; [|split; [|split; [|split; [|split]]]]]].
  - intros n Hn; unfold script_writes; destruct (isMinifiedSdk e);
      [|destruct (script_throws e setup_throws)];
      simpl in Hn; repeat (destruct Hn as [<- | Hn]; [reflexivity|]); contradiction.
  - unfold script_writes; destruct (isMinifiedSdk e); [reflexivity|].
    destruct (script_throws e setup_throws); reflexivity.
  - intro H; unfold script_throws; rewrite H; reflexivity.
  - intro H; unfold script_throws, isMinifiedSdk; rewrite H; simpl.
    apply orb_true_r.
  - unfold script_writes; destruct (isMinifiedSdk e); [|destruct (script_throws e setup_throws)];
      reflexivity.
  - unfold script_writes; destruct (isMinifiedSdk e); [|destruct (script_throws e setup_throws)];
      reflexivity.
  - unfold script_writes; destruct (isMinifiedSdk e); [|destruct (script_throws e setup_throws)];
      reflexivity.
  - intro H; unfold fast_path_detect; rewrite H; reflexivity.
Qed.

(** C8 (code defect): for a source path that mixes both separators, e.g.
    ["C:\Users\me/report.xlsx"], the title is cut after the smaller of the
    two last-separator positions ([Math.min]), giving ["me/report.xlsx"],
    which is set as [documentTitle], sent with [asc_onDocumentName] and
    passed to [SetDocumentName]; the final path segment is
    ["report.xlsx"]. *)
Lemma C8_mixed_separator_title :
  DesktopOfflineUpdateLocalName "C:\Users\me/report.xlsx"
  = ("me/report.xlsx",
     [SetDocumentTitle "me/report.xlsx";
      Schedule 100 (SendEvent "asc_onDocumentName" [AStr "me/report.xlsx"]);
      HostSetDocumentName "me/report.xlsx"])
  /\ final_segment_spec "C:\Users\me/report.xlsx" = "report.xlsx".
Proof. split; reflexivity. Qed.

(** C4 (counterexample): a path whose first object is still undefined is
    not degraded immediately.  With [window.AscCommon] undefined, watching
    ["AscCommon.baseEditorsApi"] arms the 20ms interval and leaves the
    barrier pending; no flag is set. *)
Lemma C4_undefined_intermediate_counterexample :
  let s := PathWatcher.waitForPath (fun _ _ _ => JUndef) (JVal true 0)
             "AscCommon.baseEditorsApi" 0 barrier_init in
  PathWatcher.ph s = PathWatcher.Polling 0 (JVal true 0) "AscCommon" ["baseEditorsApi"]
  /\ PathWatcher.timer s = Some 20%Z
  /\ bready (PathWatcher.bar s) = PPending
  /\ all_ready (bstatus (PathWatcher.bar s)) = false.
Proof. vm_compute; repeat split. Qed.

(** C4 (amended): a Path Watcher with the default 10000ms ceiling has
    stopped polling after [10000 / 20 + 1] firings of its interval.  If it
    timed out, it did so at a firing [tau] with
    [startTime + 10000 < tau <= startTime + 10000 + 20], with no timer left,
    the timeout diagnostic naming the path logged, every flag set and the
    promise fulfilled; if it failed on a [null] (or another falsy, not
    [undefined]) intermediate, the same degrade ran with the diagnostic
    naming the prefix that failed, at the moment that value was read; if
    it resolved, it did so before the deadline.  An intermediate that is [undefined] is not a failure: the
    watch arms its interval and waits. *)
Theorem C4_path_watcher_degrade (get : Z -> jsval -> string -> jsval) (window : jsval)
    (pathStr : string) (startTime : Z) (b : barrier) (n : nat) :
  (Z.to_nat (default_maxWait / path_poll_period) < n)%nat ->
  (let s := PathWatcher.run get pathStr startTime default_maxWait n
              (PathWatcher.waitForPath get window pathStr startTime b) in
   match PathWatcher.ph s with
   | PathWatcher.Polling _ _ _ _ => False
   | PathWatcher.Resolved t _ =>
       PathWatcher.timer s = None /\ (t - startTime <= default_maxWait)%Z
   | PathWatcher.TimedOut tau =>
       PathWatcher.timer s = None
       /\ (startTime + default_maxWait < tau <= startTime + default_maxWait + path_poll_period)%Z
       /\ complete (PathWatcher.bar s)
       /\ In (PathWatcher.msg_timeout pathStr) (blog (PathWatcher.bar s))
   | PathWatcher.Failed _ idx =>
       PathWatcher.timer s = None /\ complete (PathWatcher.bar s)
       /\ In (PathWatcher.msg_failed pathStr idx) (blog (PathWatcher.bar s))
   end)
  /\ (forall (t : Z) (prop next : string) (rest : list string) (idx : nat) (obj : jsval) (b' : barrier),
        truthy obj = true -> is_defined (get t obj prop) = true -> truthy (get t obj prop) = false ->
        PathWatcher.resolve get pathStr t (prop :: next :: rest) idx obj b'
        = PathWatcher.mkState (PathWatcher.Failed t (S idx)) None
            (forceComplete (PathWatcher.msg_failed pathStr (S idx)) b'))
  /\ (forall (t : Z) (prop : string) (rest : list string) (idx : nat) (obj : jsval) (b' : barrier),
        truthy obj = true -> get t obj prop = JUndef ->
        PathWatcher.resolve get pathStr t (prop :: rest) idx obj b'
        = PathWatcher.mkState (PathWatcher.Polling idx obj prop rest)
            (Some (t + path_poll_period)%Z) b').
Proof.
  intro Hn; split; [|split].
  - assert (Hm : (0 <= default_maxWait)%Z) by (unfold default_maxWait; lia).
    pose proof (PathWatcherFacts.run_terminates get window pathStr startTime default_maxWait
                  Hm b n Hn) as Ht.
    pose proof (PathWatcherFacts.run_watch_inv get pathStr startTime default_maxWait n _
                  (PathWatcherFacts.waitForPath_inv get window pathStr startTime default_maxWait
                     Hm b)) as Hi.
    unfold PathWatcherFacts.inv, PathWatcherFacts.is_polling in *.
    destruct (PathWatcher.ph _); try discriminate; tauto.
  - intros t prop next rest idx obj b' Ho Hd Hf; simpl.
    rewrite Ho, Hd; simpl; rewrite Hf; reflexivity.
  - intros t prop rest idx obj b' Ho Hg; simpl.
    rewrite Ho, Hg; reflexivity.
Qed.

(** C7 (counterexample): on a frozen target whose plain property is
    [undefined] ([Object.freeze({p: undefined})]: a non-writable,
    non-configurable data property on a non-extensible object),
    [Object.defineProperty] throws: no interception is installed, no poll
    is armed, and a later assignment does not run the callback.  And when
    the accessor is inherited from the prototype chain (its getter yields
    [undefined]), [Object.getOwnPropertyDescriptor] does not see it: no
    poll is armed and the watch layers its own interception on the
    target. *)
Lemma C7_frozen_target_counterexample :
  let o := PropertyWatcher.mkObj (PropertyWatcher.DData JUndef false false) false
             PropertyWatcher.INone in
  let g := fun _ : Z => JUndef in
  let o' := PropertyWatcher.mkObj PropertyWatcher.DAbsent true (PropertyWatcher.IAccessor g true) in
  PropertyWatcher.waitForProperty 0 (Some o)
  = ([], Some (PropertyWatcher.mkState o None [] true))
  /\ PropertyWatcher.calls
       (PropertyWatcher.run (PropertyWatcher.mkState o None [] true)
          [PropertyWatcher.EAssign (JVal true 1)]) = []
  /\ PropertyWatcher.waitForProperty 0 (Some o')
     = ([], Some (PropertyWatcher.mkState
                   (PropertyWatcher.mkObj (PropertyWatcher.DIntercept true JUndef) true
                      (PropertyWatcher.IAccessor g true)) None [] false)).
Proof. split; [|split]; reflexivity. Qed.

(** C7 (amended): for a falsy target, a diagnostic and nothing else.  For
    a target object: a defined current value of [obj[prop]] (own or
    inherited) is passed to the callback at once; an undefined one behind
    an own accessor (someone else's get/set or an earlier interception)
    arms a 10ms poll and installs nothing; otherwise, when
    [Object.defineProperty] may redefine the own property (a configurable
    data property, or an absent one on an extensible object, whatever the
    prototype chain holds, an inherited accessor included), the
    interception is installed on the target and, for any non-empty run of
    assignments,
    the callback runs once with the first assigned value and the property
    ends as a plain writable, configurable data property holding the last
    one; on a non-configurable data property, or an absent property of a
    non-extensible object, [Object.defineProperty] throws a TypeError. *)
Theorem C7_waitForProperty_cases (t : Z) (o : PropertyWatcher.jsobj) :
  PropertyWatcher.waitForProperty t None = ([PropertyWatcher.msg_no_target], None)
  /\ (is_defined (PropertyWatcher.read t o) = true ->
      PropertyWatcher.waitForProperty t (Some o)
      = ([], Some (PropertyWatcher.mkState o None [PropertyWatcher.read t o] false)))
  /\ (is_defined (PropertyWatcher.read t o) = false ->
      PropertyWatcher.has_accessor o = true ->
      PropertyWatcher.waitForProperty t (Some o)
      = ([], Some (PropertyWatcher.mkState o (Some (t + prop_poll_period)%Z) [] false)))
  /\ (is_defined (PropertyWatcher.read t o) = false ->
      PropertyWatcher.has_accessor o = false ->
      PropertyWatcher.can_define_accessor o = true ->
      exists ps,
        PropertyWatcher.waitForProperty t (Some o) = ([], Some ps)
        /\ PropertyWatcher.calls ps = [] /\ PropertyWatcher.ptimer ps = None
        /\ PropertyWatcher.slot (PropertyWatcher.target ps)
           = PropertyWatcher.DIntercept true JUndef
        /\ forall (v : jsval) (vs : list jsval),
             PropertyWatcher.calls (PropertyWatcher.run ps (map PropertyWatcher.EAssign (v :: vs)))
             = [v]
             /\ PropertyWatcher.slot (PropertyWatcher.target
                  (PropertyWatcher.run ps (map PropertyWatcher.EAssign (v :: vs))))
                = PropertyWatcher.DData (last (v :: vs) v) true true)
  /\ (is_defined (PropertyWatcher.read t o) = false ->
      PropertyWatcher.has_accessor o = false ->
      PropertyWatcher.can_define_accessor o = false ->
      PropertyWatcher.waitForProperty t (Some o)
      = ([], Some (PropertyWatcher.mkState o None [] true))).
Proof.
  split; [reflexivity|]; split; [|split; [|split]].
  - intro Hd; unfold PropertyWatcher.waitForProperty; rewrite Hd; reflexivity.
  - intros Hd Ha; unfold PropertyWatcher.waitForProperty; rewrite Hd, Ha; reflexivity.
  - intros Hd Ha Hc; unfold PropertyWatcher.waitForProperty; rewrite Hd, Ha, Hc.
    eexists; split; [reflexivity|]; split; [reflexivity|]; split; [reflexivity|].
    split; [reflexivity|].
    intros v vs; rewrite PropertyWatcherFacts.assign_intercepted; split; reflexivity.
  - intros Hd Ha Hc; unfold PropertyWatcher.waitForProperty; rewrite Hd, Ha, Hc; reflexivity.
Qed.

(** C9 (counterexample): the Property Watcher's accessor fallback has no
    deadline.  Over a getter that keeps returning [undefined], its 10ms
    interval is never cleared and no degrade path ever runs. *)
Lemma C9_property_poll_never_cleared :
  let o := PropertyWatcher.mkObj (PropertyWatcher.DAccessor (fun _ => JUndef) true) true
             PropertyWatcher.INone in
  PropertyWatcher.waitForProperty 0 (Some o)
  = ([], Some (PropertyWatcher.mkState o (Some 10%Z) [] false))
  /\ ~ (exists n : nat,
          PropertyWatcher.ptimer
            (PropertyWatcher.run_ticks n (PropertyWatcher.mkState o (Some 10%Z) [] false)) = None).
Proof.
  split; [reflexivity|].
  intros [n Hn].
  rewrite PropertyWatcherFacts.run_ticks_undefined in Hn by reflexivity.
  discriminate.
Qed.

(** C9 (amended): a Path Watcher holds an interval only while it polls;
    once it resolved, failed or timed out no timer is left; it has stopped
    polling after [10000 / 20 + 1] firings, and a success always lies
    before its deadline.  The Property Watcher's accessor fallback clears
    its interval when it runs the callback (a watch that has run its
    callback holds no timer), but it has no deadline: over a getter that
    keeps returning [undefined] it keeps firing every 10ms with no
    callback and no degrade path. *)
Theorem C9_watch_timers (get : Z -> jsval -> string -> jsval) (window : jsval)
    (pathStr : string) (startTime : Z) (b : barrier) (n : nat)
    (t0 : Z) (o : PropertyWatcher.jsobj) (evs : list PropertyWatcher.event) :
  (let s := PathWatcher.run get pathStr startTime default_maxWait n
              (PathWatcher.waitForPath get window pathStr startTime b) in
   (PathWatcherFacts.is_polling s = false -> PathWatcher.timer s = None)
   /\ ((Z.to_nat (default_maxWait / path_poll_period) < n)%nat ->
       PathWatcherFacts.is_polling s = false)
   /\ (forall (t : Z) (v : jsval), PathWatcher.ph s = PathWatcher.Resolved t v ->
         (t - startTime <= default_maxWait)%Z))
  /\ ((forall v, PropertyWatcher.slot o <> PropertyWatcher.DIntercept true v) ->
      forall ps, snd (PropertyWatcher.waitForProperty t0 (Some o)) = Some ps ->
      PropertyWatcher.calls (PropertyWatcher.run ps evs) <> [] ->
      PropertyWatcher.ptimer (PropertyWatcher.run ps evs) = None)
  /\ (forall (g : Z -> jsval) (c ext : bool) (pr : PropertyWatcher.inherited),
        (forall t, g t = JUndef) ->
        PropertyWatcher.ptimer
          (PropertyWatcher.run_ticks n
             (PropertyWatcher.mkState (PropertyWatcher.mkObj (PropertyWatcher.DAccessor g c) ext pr)
                (Some (t0 + prop_poll_period)%Z) [] false))
        = Some (t0 + prop_poll_period + prop_poll_period * Z.of_nat n)%Z).
Proof.
  assert (Hm : (0 <= default_maxWait)%Z) by (unfold default_maxWait; lia).
  split; [|split].
  - pose proof (PathWatcherFacts.run_watch_inv get pathStr startTime default_maxWait n _
                  (PathWatcherFacts.waitForPath_inv get window pathStr startTime default_maxWait
                     Hm b)) as Hi.
    split; [|split].
    + unfold PathWatcherFacts.inv, PathWatcherFacts.is_polling in *.
      destruct (PathWatcher.ph _); try discriminate; tauto.
    + intro Hn; exact (PathWatcherFacts.run_terminates get window pathStr startTime
                         default_maxWait Hm b n Hn).
    + intros t v Hr; unfold PathWatcherFacts.inv in Hi; rewrite Hr in Hi; tauto.
  - intros Ho ps Hps Hc.
    destruct (PropertyWatcherFacts.run_timer_inv evs ps
                (PropertyWatcherFacts.start_timer_inv t0 o ps Ho Hps)) as [H | [H _]];
      [exact H | contradiction].
  - intros g c ext pr Hg; rewrite PropertyWatcherFacts.run_ticks_undefined by exact Hg.
    reflexivity.
Qed.

(* ===================================================================== *)
(** * Witnesses: the claims' hypotheses hold at concrete inputs *)
(* ===================================================================== *)

Lemma C2_witness :
  _documentLoadStarted (run_page orch_init [ECall (mkArgs "/doc.xlsx" "" 0)]) = true
  /\ page_step (run_page orch_init [ECall (mkArgs "/doc.xlsx" "" 0)]) (ECall (mkArgs "/doc.xlsx" "" 0))
     = mkOrch true false [mkArgs "/doc.xlsx" "" 0] [] [] [msg_duplicate].
Proof.
  assert (H : _documentLoadStarted (run_page orch_init [ECall (mkArgs "/doc.xlsx" "" 0)]) = true)
    by reflexivity.
  split; [exact H|].
  exact (proj1 (proj2 (C2_entry_point_at_most_once [ECall (mkArgs "/doc.xlsx" "" 0)]
                          (mkArgs "/doc.xlsx" "" 0))) H).
Defined.

Lemma C3_witness :
  ((None : option string) = None \/ None = Some "")
  /\ resolve_base_url None "docs/report.xlsx" = "file:///docs/report.xlsx".
Proof.
  assert (Ho : (None : option string) = None \/ None = Some "") by (left; reflexivity).
  split; [exact Ho|].
  rewrite (proj1 (C3_base_url_no_scheme None "docs/report.xlsx" Ho)); reflexivity.
Defined.

Lemma C4_witness :
  (Z.to_nat (default_maxWait / path_poll_period) < 501)%nat
  /\ (let s := PathWatcher.run (fun _ _ _ => JUndef) "AscCommon.baseEditorsApi" 0 default_maxWait 501
                 (PathWatcher.waitForPath (fun _ _ _ => JUndef) (JVal true 0)
                    "AscCommon.baseEditorsApi" 0 barrier_init) in
      match PathWatcher.ph s with
      | PathWatcher.Polling _ _ _ _ => False
      | PathWatcher.Resolved t _ =>
          PathWatcher.timer s = None /\ (t - 0 <= default_maxWait)%Z
      | PathWatcher.TimedOut tau =>
          PathWatcher.timer s = None
          /\ (0 + default_maxWait < tau <= 0 + default_maxWait + path_poll_period)%Z
          /\ complete (PathWatcher.bar s)
          /\ In (PathWatcher.msg_timeout "AscCommon.baseEditorsApi") (blog (PathWatcher.bar s))
      | PathWatcher.Failed _ idx =>
          PathWatcher.timer s = None /\ complete (PathWatcher.bar s)
          /\ In (PathWatcher.msg_failed "AscCommon.baseEditorsApi" idx) (blog (PathWatcher.bar s))
      end).
Proof.
  assert (Hn : (Z.to_nat (default_maxWait / path_poll_period) < 501)%nat)
    by (apply Nat.ltb_lt; vm_compute; reflexivity).
  split; [exact Hn|].
  exact (proj1 (C4_path_watcher_degrade (fun _ _ _ => JUndef) (JVal true 0)
                  "AscCommon.baseEditorsApi" 0 barrier_init 501 Hn)).
Defined.

Lemma C5_witness :
  editor_present (mkHost true None (fun _ => None) true) = true
  /\ List.length (filter is_on_error
       (resolving (mkHost true None (fun _ => None) true) "/doc.xlsx" "binary_content://1" 0)) = 1.
Proof.
  assert (He : editor_present (mkHost true None (fun _ => None) true) = true) by reflexivity.
  split; [exact He|].
  refine (proj1 (C5_empty_or_unresolved_payload (mkHost true None (fun _ => None) true)
                   "/doc.xlsx" "binary_content://1" 0 He _)).
  right; split; reflexivity.
Defined.

Lemma C6_witness :
  truthy (win_AscCommon (mkEnv (JVal true 1) JUndef)) = true
  /\ bready (fst (fast_path_detect (mkEnv (JVal true 1) JUndef))) = PFulfilled.
Proof.
  split; [reflexivity|].
  exact (proj1 (proj2 (C6_fast_path_completes_at_startup (mkEnv (JVal true 1) JUndef)
                         eq_refl eq_refl))).
Defined.

Lemma C7_witness :
  exists ps,
    PropertyWatcher.waitForProperty 0
      (Some (PropertyWatcher.mkObj PropertyWatcher.DAbsent true
               (PropertyWatcher.IAccessor (fun _ => JUndef) true)))
    = ([], Some ps)
    /\ PropertyWatcher.calls
         (PropertyWatcher.run ps (map PropertyWatcher.EAssign [JVal true 1; JVal true 2]))
       = [JVal true 1].
Proof.
  destruct (proj1 (proj2 (proj2 (proj2
              (C7_waitForProperty_cases 0
                 (PropertyWatcher.mkObj PropertyWatcher.DAbsent true
                    (PropertyWatcher.IAccessor (fun _ => JUndef) true))))))
              eq_refl eq_refl eq_refl) as (ps & H1 & _ & _ & _ & H4).
  exists ps; split; [exact H1 | exact (proj1 (H4 (JVal true 1) [JVal true 2]))].
Defined.

Lemma C9_witness :
  let o := PropertyWatcher.mkObj
             (PropertyWatcher.DAccessor (fun t => if Z.ltb t 20 then JUndef else JVal true 5) true)
             true PropertyWatcher.INone in
  let ps := PropertyWatcher.mkState o (Some 10%Z) [] false in
  let evs := [PropertyWatcher.ETick; PropertyWatcher.ETick] in
  (forall v, PropertyWatcher.slot o <> PropertyWatcher.DIntercept true v)
  /\ snd (PropertyWatcher.waitForProperty 0 (Some o)) = Some ps
  /\ PropertyWatcher.calls (PropertyWatcher.run ps evs) = [JVal true 5]
  /\ PropertyWatcher.ptimer (PropertyWatcher.run ps evs) = None.
Proof.
  intros o ps evs.
  assert (H1 : forall v, PropertyWatcher.slot o <> PropertyWatcher.DIntercept true v)
    by (intros v E; discriminate E).
  assert (H2 : snd (PropertyWatcher.waitForProperty 0 (Some o)) = Some ps) by reflexivity.
  assert (H3 : PropertyWatcher.calls (PropertyWatcher.run ps evs) = [JVal true 5]) by reflexivity.
  split; [exact H1|]; split; [exact H2|]; split; [exact H3|].
  refine (proj1 (proj2 (C9_watch_timers (fun _ _ _ => JUndef) (JVal true 0) "AscCommon.sdk" 0
            barrier_init 0 0 o evs)) H1 ps H2 _).
  rewrite H3; discriminate.
Defined.

Lemma C10_witness :
  In "DesktopOfflineAppDocumentEndLoad" layer_entry_points
  /\ global_after (script_writes (mkEnv (JVal true 1) JUndef) false) "DesktopOfflineAppDocumentEndLoad"
     = None
  /\ global_after (script_writes (mkEnv JUndef JUndef) false) "DesktopOfflineAppDocumentEndLoad"
     = Some GFunction.
Proof.
  assert (Hin : In "DesktopOfflineAppDocumentEndLoad" layer_entry_points) by (left; reflexivity).
  split; [exact Hin|]; split.
  - exact (proj1 (C10_minified_leaves_entry_points_undefined (mkEnv (JVal true 1) JUndef) false)
             "DesktopOfflineAppDocumentEndLoad" Hin).
  - exact (proj1 (C10_minified_leaves_entry_points_undefined (mkEnv JUndef JUndef) false)
             "DesktopOfflineAppDocumentEndLoad" Hin).
Defined.

(* ===================================================================== *)
(** * Further properties of the code *)
(* ===================================================================== *)

(** X1: Without the host's LocalFileGetImageUrlCorrect and for a document url that contains no %20, getImageLocal maps the url that getImageUrl gives for a media path (one not starting with 'theme' and not under the themes url) back to that path with each %20 decoded to a space. Outside Editor.xlsx, getUrl gives the same url and getLocal maps it back the same way. *)
Theorem X_image_url_round_trip (e : DocumentUrls.env) (p : string) :
  DocumentUrls.correct e = None ->
  starts_at0 "theme" p = false ->
  DocumentUrls.under_themes_url e p = false ->
  DocumentUrls.replace20 (DocumentUrls.documentUrl e) = DocumentUrls.documentUrl e ->
  DocumentUrls.getImageLocal e (DocumentUrls.getImageUrl e p) = Some (DocumentUrls.replace20 p)
  /\ (String.eqb p "Editor.xlsx" = false ->
      DocumentUrls.url_arg (DocumentUrls.getUrl e p) = DocumentUrls.getImageUrl e p
      /\ DocumentUrls.getLocal e (DocumentUrls.url_arg (DocumentUrls.getUrl e p))
         = Some (DocumentUrls.replace20 p)).
Proof.
  intros Hc Ht Hu Hd.
  assert (Hi : DocumentUrls.getImageUrl e p
               = Some (String.append (String.append (DocumentUrls.documentUrl e) "/media/") p))
    by (unfold DocumentUrls.getImageUrl, DocumentUrls.getCorrectImageUrl; rewrite Ht, Hu, Hc; reflexivity).
  rewrite Hi; split; [apply DocumentUrlsFacts.getImageLocal_media, Hd|].
  intro He; unfold DocumentUrls.getUrl; rewrite Ht, Hu, He; simpl.
  split; [reflexivity|]; apply DocumentUrlsFacts.getImageLocal_media, Hd.
Qed.


(** X2: Splitting a dotted path on '.' and joining the parts again with '.' gives the path back, and the number of parts is one more than the number of dots. *)
Theorem X_path_parts_round_trip (pathStr : string) :
  join_dot (split_dot pathStr) = pathStr
  /\ List.length (split_dot pathStr) = S (SplitJoinFacts.count_char "."%char pathStr).
Proof.
  unfold split_dot; rewrite SplitJoinFacts.split_dot_aux_on, SplitJoinFacts.join_dot_with.
  split.
  - rewrite SplitJoinFacts.join_split_aux, SplitJoinFacts.replace_char_self; reflexivity.
  - apply SplitJoinFacts.length_split_aux.
Qed.


(** X3: The url encoding of UpdateInstallPlugins replaces every space by %20, so its result contains no space. *)
Theorem X_encode_url (u : string) :
  Plugins.encode_url u = SplitJoinFacts.replace_char " "%char "%20" u
  /\ SplitJoinFacts.count_char " "%char (Plugins.encode_url u) = 0.
Proof.
  unfold Plugins.encode_url, split_on; rewrite SplitJoinFacts.join_split_aux; simpl.
  split; [reflexivity|]; apply SplitJoinFacts.no_char_replace; reflexivity.
Qed.


(** X4: With at least two plugin groups, UpdateInstallPlugins registers the plugins-reset callback only when window.IsFirstPluginLoad is falsy (the first call) and leaves that flag set. It then sends the plugins-reset event and one init message whose url is the first group's encoded url and whose plugins are the loadable plugins of the first two groups, each with a base url built from its group's encoded url. *)
Theorem X_install_plugins (IsFirstPluginLoad : bool) (u0 u1 : string)
  (ps0 ps1 : list Plugins.plugin) (rest : list (string * list Plugins.plugin)) :
  Plugins.UpdateInstallPlugins IsFirstPluginLoad ((u0, ps0) :: (u1, ps1) :: rest)
  = Some (true, (if IsFirstPluginLoad then [] else [Plugins.RegisterPluginsReset])
                ++ [Plugins.SendPluginsReset;
                    Plugins.SendPluginsInit
                      (Plugins.mkMessage (Plugins.encode_url u0)
                         (map (PluginsFacts.finish (Plugins.encode_url u0))
                              (filter PluginsFacts.kept ps0)
                          ++ map (PluginsFacts.finish (Plugins.encode_url u1))
                              (filter PluginsFacts.kept ps1)))]).
Proof.
  unfold Plugins.UpdateInstallPlugins, Plugins.parse.
  set (json := (u0, ps0) :: (u1, ps1) :: rest).
  assert (Hh : fst (Plugins.alloc_groups [] json) = ps0 ++ ps1 ++ List.concat (map snd rest))
    by (rewrite PluginsFacts.alloc_groups_heap; reflexivity).
  assert (Hg : snd (Plugins.alloc_groups [] json)
               = Plugins.mkGroup u0 (seq 0 (List.length ps0))
                 :: Plugins.mkGroup u1 (seq (List.length ps0) (List.length ps1))
                 :: snd (Plugins.alloc_groups (ps0 ++ ps1) rest)).
  { unfold json; rewrite PluginsFacts.alloc_groups_cons; simpl app.
    rewrite PluginsFacts.alloc_groups_cons; reflexivity. }
  destruct (Plugins.alloc_groups [] json) as [h0 gs] eqn:Ea; simpl in Hh, Hg; subst h0 gs.
  cbn [Plugins.url Plugins.pluginsData fold_left].
  set (n0 := List.length ps0); set (n1 := List.length ps1).
  set (h0 := ps0 ++ ps1 ++ List.concat (map snd rest) : Plugins.heap).
  assert (Lh : n0 + n1 <= List.length h0)
    by (unfold h0, n0, n1; rewrite !length_app; lia).
  destruct (PluginsFacts.fold_visit (Plugins.encode_url u0) n0 0 h0 [] ltac:(lia))
    as (S1 & L1 & E1).
  change (@pair (list Plugins.plugin) (list nat) h0 []) with (@pair Plugins.heap (list nat) h0 []).
  destruct (fold_left (Plugins.visit (Plugins.encode_url u0)) (seq 0 n0) (@pair Plugins.heap (list nat) h0 []))
    as [h1 out1] eqn:F1; simpl in S1, L1, E1.
  destruct (PluginsFacts.fold_visit (Plugins.encode_url u1) n1 n0 h1 out1 ltac:(lia))
    as (S2 & L2 & E2).
  destruct (fold_left (Plugins.visit (Plugins.encode_url u1)) (seq n0 n1) (h1, out1))
    as [h2 out2] eqn:F2; simpl in S2, L2, E2.
  rewrite S1 in S2; simpl in S2; subst out2.
  rewrite PluginsFacts.prune_spec by lia; simpl.
  rewrite PluginsFacts.filter_map_load, map_app.
  assert (M0 : map (Plugins.load h2) (seq 0 n0) = map (PluginsFacts.finish (Plugins.encode_url u0)) ps0).
  { rewrite <- (PluginsFacts.map_nth_seq [] ps0 (ps1 ++ List.concat (map snd rest))).
    rewrite map_map; apply map_ext_in; intros m Hm; apply in_seq in Hm; cbn [List.length] in Hm; change (List.length ps0) with n0 in Hm; change (List.length ps1) with n1 in Hm.
    rewrite E2, E1.
    destruct (Nat.leb_spec n0 m), (Nat.ltb_spec m n0), (Nat.ltb_spec m (n0 + n1)); simpl; try lia.
    reflexivity. }
  assert (M1 : map (Plugins.load h2) (seq n0 n1) = map (PluginsFacts.finish (Plugins.encode_url u1)) ps1).
  { rewrite <- (PluginsFacts.map_nth_seq ps0 ps1 (List.concat (map snd rest))).
    rewrite map_map; apply map_ext_in; intros m Hm; apply in_seq in Hm; cbn [List.length] in Hm; change (List.length ps0) with n0 in Hm; change (List.length ps1) with n1 in Hm.
    rewrite E2, E1.
    destruct (Nat.leb_spec n0 m), (Nat.ltb_spec m n0), (Nat.ltb_spec m (n0 + n1)); simpl; try lia.
    reflexivity. }
  rewrite M0, M1, filter_app, !PluginsFacts.filter_map_finish; reflexivity.
Qed.


(** X5: With fewer than two plugin groups, UpdateInstallPlugins throws a TypeError when it reads the url of a missing group, so it registers no callback and sends no event or init message. *)
Theorem X_install_plugins_too_few_groups (IsFirstPluginLoad : bool)
  (json : list (string * list Plugins.plugin)) :
  (List.length json < 2)%nat -> Plugins.UpdateInstallPlugins IsFirstPluginLoad json = None.
Proof.
  intro H; destruct json as [|[u ps] [|g r]]; simpl in H; try lia; reflexivity.
Qed.


(** X6: When the reported signature count is at most the number of entries, DesktopOfflineAppDocumentSignatures builds exactly count lines, the k-th from the k-th entry, and then loads their images and updates the signature list. *)
Theorem X_signatures_loaded (req : list string) (c : Z) (data : list Signatures.sign_json) :
  (Z.to_nat c <= List.length data)%nat ->
  let '(sigs, effs) := Signatures.DesktopOfflineAppDocumentSignatures req
                         (Signatures.JParsed (Some c) data) in
  List.length sigs = Z.to_nat c
  /\ (forall k s, (k < Z.to_nat c)%nat -> nth_error data k = Some s ->
        nth_error sigs k = Some (Signatures.make_line req k s))
  /\ effs = [Signatures.LoadImages (map Signatures.limage sigs); Signatures.UpdateSignatures].
Proof.
  intro Hc; unfold Signatures.DesktopOfflineAppDocumentSignatures.
  rewrite SignaturesFacts.sign_loop_spec by lia; simpl.
  replace (Nat.ltb (List.length data) (Z.to_nat c)) with false
    by (symmetry; apply Nat.ltb_ge; exact Hc).
  split; [|split; [|reflexivity]].
  - rewrite SignaturesFacts.lines_from_length, length_firstn; lia.
  - intros k s Hk Hs; apply SignaturesFacts.lines_from_nth.
    rewrite nth_error_firstn; apply Nat.ltb_lt in Hk; rewrite Hk; exact Hs.
Qed.


(** X7: When the reported count exceeds the entries, DesktopOfflineAppDocumentSignatures builds one line per entry and then stops on the missing entry, before it loads images or updates the signature list. *)
Theorem X_signatures_count_too_large (req : list string) (c : Z) (data : list Signatures.sign_json) :
  (List.length data < Z.to_nat c)%nat ->
  let '(sigs, effs) := Signatures.DesktopOfflineAppDocumentSignatures req
                         (Signatures.JParsed (Some c) data) in
  List.length sigs = List.length data
  /\ (forall k s, nth_error data k = Some s -> nth_error sigs k = Some (Signatures.make_line req k s))
  /\ effs = [].
Proof.
  intro Hc; unfold Signatures.DesktopOfflineAppDocumentSignatures.
  rewrite SignaturesFacts.sign_loop_spec by lia; simpl.
  replace (Nat.ltb (List.length data) (Z.to_nat c)) with true
    by (symmetry; apply Nat.ltb_lt; exact Hc).
  rewrite firstn_all2 by lia.
  split; [|split; [|reflexivity]].
  - apply SignaturesFacts.lines_from_length.
  - intros k s Hs; apply SignaturesFacts.lines_from_nth; exact Hs.
Qed.


(** X8: When _json is empty or invalid, or parses to a non-null value without a positive count, DesktopOfflineAppDocumentSignatures builds no line, loads an empty image list and updates the signature list. When _json parses to null, reading its count throws, so nothing is loaded or sent. *)
Theorem X_signatures_none (req : list string) (j : Signatures.json_in) :
  j <> Signatures.JParsedNull ->
  (forall c data, j = Signatures.JParsed (Some c) data -> (c <= 0)%Z) ->
  Signatures.DesktopOfflineAppDocumentSignatures req j
  = ([], [Signatures.LoadImages []; Signatures.UpdateSignatures])
  /\ Signatures.DesktopOfflineAppDocumentSignatures req Signatures.JParsedNull = ([], []).
Proof.
  intros Hn H; split; [|reflexivity]; unfold Signatures.DesktopOfflineAppDocumentSignatures.
  destruct j as [| | |[c|] data]; try reflexivity; [contradiction|].
  specialize (H c data eq_refl).
  replace (Z.to_nat c) with 0%nat by lia; reflexivity.
Qed.


(** X9: asc_IsVisibleSign answers true exactly for the guids of the requested signatures. *)
Theorem X_visible_sign_member (req : list string) (guid : string) :
  Signatures.asc_IsVisibleSign req guid = true <-> In guid req.
Proof.
  induction req as [|r rs IH]; simpl; [split; [discriminate | tauto]|].
  destruct (String.eqb_spec r guid) as [->|Hne].
  - split; [left; reflexivity | reflexivity].
  - rewrite IH; split; [right; assumption | intros [E|E]; [congruence | exact E]].
Qed.

(** X10: In an editor that is not view-restricted, when the guid names an existing signature, asc_LocalRequestSign keeps the pending request and only opens the certificate of that signature, and only in view mode. *)
Theorem X_request_existing_signature (ed : SignRequest.editor) (q : option SignRequest.pending)
  (guid : string) (width height : option Z) (isView : bool) (s : Signatures.sig_line) :
  SignRequest.restricted ed = false ->
  SignRequest.find_sign (SignRequest.signatures ed) guid = Some s ->
  Signatures.lguid s = guid /\ In s (SignRequest.signatures ed)
  /\ SignRequest.asc_LocalRequestSign ed q guid width height isView
     = (q, if isView then [SignRequest.ViewCertificate (Signatures.lid s)] else []).
Proof.
  intros Hr Hf; rewrite SignRequestFacts.request_unfold, Hr, Hf.
  split; [|split; [|reflexivity]].
  - clear Hr; induction (SignRequest.signatures ed) as [|x l IH]; simpl in Hf; [discriminate|].
    destruct (String.eqb_spec (Signatures.lguid x) guid); [injection Hf as <-; assumption | auto].
  - clear Hr; induction (SignRequest.signatures ed) as [|x l IH]; simpl in Hf; [discriminate|].
    destruct (String.eqb (Signatures.lguid x) guid); [injection Hf as <-; left; reflexivity | right; auto].
Qed.




(** X11: In an editor that is not view-restricted, for a new signature in a modified document, asc_LocalRequestSign records the request and asks the save question. A positive answer saves while keeping the request; a negative one drops it. *)
Theorem X_request_modified_save_question (ed : SignRequest.editor) (q : option SignRequest.pending)
  (guid : string) (width height : option Z) (isView : bool) :
  SignRequest.restricted ed = false ->
  SignRequest.find_sign (SignRequest.signatures ed) guid = None ->
  SignRequest.modified ed = true ->
  let p := SignRequest.mkPending guid (SignRequestFacts.eff_width width isView)
             (SignRequestFacts.eff_height width height isView) in
  SignRequest.asc_LocalRequestSign ed q guid width height isView = (Some p, [SignRequest.SaveQuestion])
  /\ SignRequest.DesktopSaveQuestionReturn (Some p) true = (Some p, [SignRequest.AscSave false])
  /\ SignRequest.DesktopSaveQuestionReturn (Some p) false = (None, []).
Proof.
  intros Hr Hf Hm p; rewrite SignRequestFacts.request_unfold, Hr, Hf, Hm.
  split; [reflexivity | split; reflexivity].
Qed.


(** X12: asc_LocalRequestSign changes the pending request only for a new signature in an unrestricted, modified document. *)
Theorem X_request_pending_unchanged (ed : SignRequest.editor) (q : option SignRequest.pending)
  (guid : string) (width height : option Z) (isView : bool) :
  SignRequest.restricted ed = true
  \/ SignRequest.find_sign (SignRequest.signatures ed) guid <> None
  \/ SignRequest.modified ed = false ->
  fst (SignRequest.asc_LocalRequestSign ed q guid width height isView) = q.
Proof.
  intro H; rewrite SignRequestFacts.request_unfold.
  destruct (SignRequest.restricted ed); [reflexivity|].
  destruct (SignRequest.find_sign (SignRequest.signatures ed) guid); [reflexivity|].
  destruct (SignRequest.modified ed); [|reflexivity].
  destruct H as [H|[H|H]]; [discriminate | congruence | discriminate].
Qed.




(** X13: For a new signature in an unrestricted, unmodified document, a click without width gets the 100x100 default size while a click with width keeps the given sizes, and a double click always passes its sizes through. *)
Theorem X_request_default_size (ed : SignRequest.editor) (q : option SignRequest.pending)
  (guid : string) (width height : option Z) :
  SignRequest.restricted ed = false ->
  SignRequest.find_sign (SignRequest.signatures ed) guid = None ->
  SignRequest.modified ed = false ->
  let vis := Signatures.asc_IsVisibleSign (SignRequest.all_signatures ed) guid in
  SignRequest.asc_LocalRequestSign ed q guid None height false
    = (q, [SignRequest.SignatureClick guid (Some 100%Z) (Some 100%Z) vis])
  /\ (forall w, SignRequest.asc_LocalRequestSign ed q guid (Some w) height false
                = (q, [SignRequest.SignatureClick guid (Some w) height vis]))
  /\ SignRequest.on_signature_dblclick ed q guid width height
     = (q, [SignRequest.SignatureClick guid width height vis]).
Proof.
  intros Hr Hf Hm vis; unfold SignRequest.on_signature_dblclick.
  rewrite !SignRequestFacts.request_unfold, Hr, Hf, Hm.
  split; [reflexivity|]; split; [|reflexivity].
  intro w; rewrite SignRequestFacts.request_unfold, Hr, Hf, Hm; reflexivity.
Qed.


(** X14: From a state with no requests, LoadFontAsync opens at most one request per font whatever the events, and each stream index set or request still pending for a font comes from one opened request. *)
Theorem X_font_single_request (s : Fonts.fstate) (evs : list Fonts.fevent) (f : nat) :
  Fonts.flog s = [] -> Fonts.xhrs s = [] ->
  let s' := Fonts.frun s evs in
  FontsFacts.count_open f (Fonts.flog s') <= 1
  /\ FontsFacts.count_set f (Fonts.flog s') + FontsFacts.count_pending f (Fonts.xhrs s')
     <= FontsFacts.count_open f (Fonts.flog s').
Proof.
  intros Hl Hx s'; split.
  - pose proof (FontsFacts.frun_budget f evs s) as B; unfold FontsFacts.budget in B.
    rewrite Hl in B; simpl in B; fold s' in B.
    destruct (Z.eqb (Fonts.Status (Fonts.get_font s' f)) (-1)), (Z.eqb (Fonts.Status (Fonts.get_font s f)) (-1)); simpl in B; lia.
  - apply FontsFacts.frun_accounted; unfold FontsFacts.accounted; rewrite Hl, Hx; reflexivity.
Qed.


(** X15: Starting from a state where this already holds, every stream index that the font loader sets for a font points to a loaded stream of that font. *)
Theorem X_font_stream_index (s : Fonts.fstate) (evs : list Fonts.fevent) :
  FontsFacts.streams_ok s ->
  forall f idx, In (Fonts.SetStreamIndex f idx) (Fonts.flog (Fonts.frun s evs)) ->
  exists st, nth_error (Fonts.g_fonts_streams (Fonts.frun s evs)) idx = Some st
             /\ FontsFacts.stream_font st = f.
Proof. intro H; apply FontsFacts.frun_streams_ok, H. Qed.


(** X16: When the path uses only one kind of separator, DesktopOfflineUpdateLocalName takes as title the part after the last separator, or the whole path if it has none. *)
Theorem X_local_name_single_separator (p : string) :
  (SplitJoinFacts.count_char backslash p = 0 \/ SplitJoinFacts.count_char slash p = 0)%nat ->
  (Z.of_nat (String.length p) <= 1000000)%Z ->
  let t := fst (DesktopOfflineUpdateLocalName p) in
  (t = p /\ SplitJoinFacts.count_char backslash p = 0 /\ SplitJoinFacts.count_char slash p = 0)%nat
  \/ (exists pre c, (c = backslash \/ c = slash) /\ p = String.append pre (String c t)
      /\ SplitJoinFacts.count_char backslash t = 0 /\ SplitJoinFacts.count_char slash t = 0)%nat.
Proof.
  intros Hsep Hlen t; unfold t; clear t.
  assert (Hbs : Ascii.eqb slash backslash = false) by reflexivity.
  assert (Hsb : Ascii.eqb backslash slash = false) by reflexivity.
  assert (Title : forall i1 i2, lastIndexOf backslash p = i1 -> lastIndexOf slash p = i2 ->
            fst (DesktopOfflineUpdateLocalName p)
            = let i1 := if Z.eqb i1 (-1) then 1000000%Z else i1 in
              let i2 := if Z.eqb i2 (-1) then 1000000%Z else i2 in
              if negb (Z.eqb (Z.min i1 i2) 1000000) then substring_from (Z.min i1 i2 + 1) p else p).
  { intros i1 i2 E1 E2; unfold DesktopOfflineUpdateLocalName; cbv zeta; rewrite E1, E2; reflexivity. }
  destruct (LocalNameFacts.last_char_split backslash p) as [Nb|(a & b & Ep & Nb)];
  destruct (LocalNameFacts.last_char_split slash p) as [Ns|(a' & b' & Ep' & Ns)].
  - rewrite (Title (-1)%Z (-1)%Z) by (apply LocalNameFacts.lastIndexOf_aux_none; assumption).
    left; auto.
  - assert (I2 : lastIndexOf slash p = Z.of_nat (String.length a')).
    { unfold lastIndexOf; rewrite Ep'; rewrite LocalNameFacts.lastIndexOf_aux_last by exact Ns; lia. }
    pose proof (LocalNameFacts.length_last a' b' slash) as L; rewrite <- Ep' in L.
    rewrite (Title (-1)%Z _ ltac:(apply LocalNameFacts.lastIndexOf_aux_none; assumption) I2); cbv zeta.
    replace (Z.eqb (Z.of_nat (String.length a')) (-1)) with false by (symmetry; apply Z.eqb_neq; lia).
    simpl Z.eqb; cbv iota.
    replace (Z.min 1000000 (Z.of_nat (String.length a'))) with (Z.of_nat (String.length a')) by lia.
    replace (Z.eqb (Z.of_nat (String.length a')) 1000000) with false by (symmetry; apply Z.eqb_neq; lia).
    simpl negb; cbv iota.
    assert (Et : substring_from (Z.of_nat (String.length a') + 1) p = b')
      by (rewrite Ep'; apply LocalNameFacts.substring_from_last).
    rewrite Et.
    right; exists a', slash; split; [right; reflexivity|]; split; [exact Ep'|]; split; [|exact Ns].
    rewrite Ep', SplitJoinFacts.count_char_append in Nb; simpl in Nb; rewrite ?Hbs in Nb; lia.
  - assert (I1 : lastIndexOf backslash p = Z.of_nat (String.length a)).
    { unfold lastIndexOf; rewrite Ep; rewrite LocalNameFacts.lastIndexOf_aux_last by exact Nb; lia. }
    pose proof (LocalNameFacts.length_last a b backslash) as L; rewrite <- Ep in L.
    rewrite (Title _ (-1)%Z I1 ltac:(apply LocalNameFacts.lastIndexOf_aux_none; assumption)); cbv zeta.
    replace (Z.eqb (Z.of_nat (String.length a)) (-1)) with false by (symmetry; apply Z.eqb_neq; lia).
    simpl Z.eqb; cbv iota.
    replace (Z.min (Z.of_nat (String.length a)) 1000000) with (Z.of_nat (String.length a)) by lia.
    replace (Z.eqb (Z.of_nat (String.length a)) 1000000) with false by (symmetry; apply Z.eqb_neq; lia).
    simpl negb; cbv iota.
    assert (Et : substring_from (Z.of_nat (String.length a) + 1) p = b)
      by (rewrite Ep; apply LocalNameFacts.substring_from_last).
    rewrite Et.
    right; exists a, backslash; split; [left; reflexivity|]; split; [exact Ep|]; split; [exact Nb|].
    rewrite Ep, SplitJoinFacts.count_char_append in Ns; simpl in Ns; rewrite ?Hsb in Ns; lia.
  - exfalso.
    destruct Hsep as [Hsep|Hsep].
    + rewrite Ep, SplitJoinFacts.count_char_append in Hsep; simpl in Hsep.
      rewrite ?Ascii.eqb_refl in Hsep; lia.
    + rewrite Ep', SplitJoinFacts.count_char_append in Hsep; simpl in Hsep.
      rewrite ?Ascii.eqb_refl in Hsep; lia.
Qed.


(** X17: getImageUrl and getUrl give null for a theme path or a path under the themes url. *)
Theorem X_theme_paths_null (e : DocumentUrls.env) (p : string) :
  DocumentUrls.isThemeUrl (Some p) = true \/ DocumentUrls.under_themes_url e p = true ->
  DocumentUrls.getImageUrl e p = None /\ DocumentUrls.getUrl e p = DocumentUrls.UNull.
Proof.
  unfold DocumentUrls.getImageUrl, DocumentUrls.getUrl.
  intros [H|H].
  - rewrite (DocumentUrlsMoreFacts.starts_theme p H); split; reflexivity.
  - rewrite H; destruct (starts_at0 "theme" p); split; reflexivity.
Qed.


(** X18: imagePath2Local removes the media prefix from a path that starts with it and leaves any other path unchanged. *)
Theorem X_image_path2local (x l : string) :
  DocumentUrls.imagePath2Local (Some (String.append DocumentUrls.mediaPrefix x)) = Some x
  /\ ((forall y, l <> String.append DocumentUrls.mediaPrefix y) ->
      DocumentUrls.imagePath2Local (Some l) = Some l).
Proof.
  unfold DocumentUrls.imagePath2Local; split.
  - rewrite DocumentUrlsMoreFacts.substring_append_prefix, StringFacts.substr_from_append.
    reflexivity.
  - intro H.
    destruct (String.eqb DocumentUrls.mediaPrefix
                (String.substring 0 (String.length DocumentUrls.mediaPrefix) l)) eqn:E;
      [|rewrite andb_false_r; reflexivity].
    apply String.eqb_eq in E; symmetry in E.
    destruct (DocumentUrlsMoreFacts.substring_prefix _ _ E) as (y & Ey).
    exfalso; exact (H y Ey).
Qed.


(** X19: ondrop looks only at the first non-empty image file of the drop: when that file has a non-empty local url, ondrop inserts its image and pastes nothing. *)
Theorem X_drop_inserts_first_image (d : DragDrop.drop_env) (f r : string) :
  DragDropFacts.first_image d (DragDrop.GetDropFiles d) = Some f ->
  DragDrop.LocalFileGetImageUrl d f = Some r -> r <> "" ->
  DragDrop.ondrop d
  = [DragDrop.PreventDefault; DragDrop.EndInlineDropTarget;
     DragDrop.AddImageUrl [DocumentUrls.getImageUrl (DragDrop.urls d) r]].
Proof.
  intros Hf Hu Hr; unfold DragDrop.ondrop.
  rewrite (DragDropFacts.first_image_nonempty _ _ _ Hf); cbn [negb].
  rewrite DragDropFacts.image_loop_spec, Hf; unfold DragDropFacts.pushed; rewrite Hu.
  apply String.eqb_neq in Hr; rewrite Hr; reflexivity.
Qed.


(** X20: When the drop has no non-empty image file, or the first one has no non-empty local url, ondrop inserts no image and pastes the dropped html, otherwise the dropped text, otherwise nothing. *)
Theorem X_drop_falls_back_to_paste (d : DragDrop.drop_env) :
  (forall f, DragDropFacts.first_image d (DragDrop.GetDropFiles d) = Some f ->
     DragDrop.LocalFileGetImageUrl d f = None \/ DragDrop.LocalFileGetImageUrl d f = Some "") ->
  DragDrop.ondrop d
  = [DragDrop.PreventDefault; DragDrop.EndInlineDropTarget]
    ++ (if negb (String.eqb (DragDrop.html_data d) "") then [DragDrop.PasteHtml (DragDrop.html_data d)]
        else if negb (String.eqb (DragDrop.text_data d) "") then [DragDrop.PasteText (DragDrop.text_data d)]
        else []).
Proof.
  intro H; unfold DragDrop.ondrop.
  assert (E : DragDrop.image_loop d (DragDrop.GetDropFiles d) [] = []).
  { rewrite DragDropFacts.image_loop_spec; simpl.
    destruct (DragDropFacts.first_image d (DragDrop.GetDropFiles d)) as [f|] eqn:Hf; [|reflexivity].
    unfold DragDropFacts.pushed; destruct (H f eq_refl) as [-> | ->]; reflexivity. }
  destruct (Nat.eqb (List.length (DragDrop.GetDropFiles d)) 0); cbn [negb]; [reflexivity|].
  rewrite E; reflexivity.
Qed.


(** X21: A waitForPath run that ends without degrading leaves the barrier as it was apart from the start message in its log. *)
Theorem X_path_watch_success_keeps_barrier (get : Z -> jsval -> string -> jsval) (window : jsval)
    (pathStr : string) (startTime maxWait : Z) (b : barrier) (n : nat) :
  let s := PathWatcher.run get pathStr startTime maxWait n
             (PathWatcher.waitForPath get window pathStr startTime b) in
  PathWatcherBarFacts.degraded s = false ->
  PathWatcher.bar s = mkBarrier (bstatus b) (bready b) (blog b ++ [PathWatcher.msg_starting pathStr]).
Proof.
  intros s H; unfold s in *.
  rewrite PathWatcherBarFacts.run_bar by exact H.
  assert (H0 : PathWatcherBarFacts.degraded (PathWatcher.waitForPath get window pathStr startTime b) = false).
  { destruct (PathWatcherBarFacts.degraded (PathWatcher.waitForPath get window pathStr startTime b)) eqn:Hd;
      [|reflexivity].
    assert (Hr : forall m u, PathWatcherBarFacts.degraded u = true ->
                   PathWatcher.run get pathStr startTime maxWait m u = u).
    { induction m as [|m IHm]; intros u Hu; [reflexivity|]; simpl.
      rewrite PathWatcherBarFacts.tick_degraded by exact Hu; apply IHm, Hu. }
    rewrite Hr in H by exact Hd; congruence. }
  unfold PathWatcher.waitForPath in H0 |- *.
  apply PathWatcherBarFacts.resolve_bar, H0.
Qed.


(** X22: pluginMethod_OnEncryption starts a save exactly for a generatePassword message whose password is not the empty string (an undefined password included), with the window's save-as flag, that password and the docinfo or the empty string. *)
Theorem X_encryption_save_start (env : Encryption.enc_env) (s : Encryption.enc_state)
    (obj : Encryption.enc_obj) (isSaveAs : bool) (pwd : option string) (di : string) :
  In (Encryption.StartSave isSaveAs pwd di) (snd (Encryption.pluginMethod_OnEncryption env s obj))
  <-> Encryption.otype obj = "generatePassword" /\ Encryption.password obj <> Some ""
      /\ isSaveAs = Encryption.doadssIsSaveAs env /\ pwd = Encryption.password obj
      /\ di = Encryption.docinfo_or_empty (Encryption.docinfo obj).
Proof.
  unfold Encryption.pluginMethod_OnEncryption.
  assert (Hl : Encryption.loose_eq_empty (Encryption.password obj) = true
               <-> Encryption.password obj = Some "").
  { unfold Encryption.loose_eq_empty; destruct (Encryption.password obj) as [p|];
      [rewrite String.eqb_eq; split; [intros ->|intro H; injection H]; auto | split; discriminate]. }
  destruct (String.eqb_spec (Encryption.otype obj) "generatePassword") as [Eg|Eg].
  - destruct (Encryption.loose_eq_empty (Encryption.password obj)) eqn:El; simpl.
    + split; [intros [H|[H|[]]]; [destruct (Encryption.window_editor env)|]; discriminate|].
      intros (_ & Hp & _); exfalso; apply Hp, Hl; reflexivity.
    + split.
      * intros [H|[H|[]]]; [|discriminate].
        injection H as <- <- <-; repeat split; auto.
        intro Hp; apply Hl in Hp; congruence.
      * intros (_ & _ & -> & -> & ->); left; reflexivity.
  - assert (Hno : ~ In (Encryption.StartSave isSaveAs pwd di)
                      (snd (if String.eqb (Encryption.otype obj) "getPasswordByFile" then
                              if negb (Encryption.loose_eq_empty (Encryption.password obj)) then
                                (Encryption.mkEncState (Encryption.UserSavedIndex s)
                                   (Encryption.LastUserSavedIndex s) (Encryption.password obj)
                                   (Encryption.currentDocumentInfoNext s) (Encryption.CryptoMode s),
                                 [if Encryption.isNativeOpenPassword env
                                  then Encryption.NativeViewerOpen (Encryption.password obj)
                                  else Encryption.SetAdvancedOptions
                                         (String.append "<m_sPassword>"
                                            (String.append
                                               (Encryption.CopyPasteCorrectString env (Encryption.password obj))
                                               "</m_sPassword>"))])
                              else (s, [Encryption.OnNeedParams])
                            else if String.eqb (Encryption.otype obj) "encryptData"
                                    || String.eqb (Encryption.otype obj) "decryptData"
                            then (s, [Encryption.ReceiveChanges]) else (s, [])))).
    { destruct (String.eqb (Encryption.otype obj) "getPasswordByFile");
        [destruct (negb _); [destruct (Encryption.isNativeOpenPassword env)|]|
         destruct (_ || _)]; simpl; intuition discriminate. }
    split; [intro H; exfalso; exact (Hno H) | intros (H & _); contradiction].
Qed.


(** X23: pluginMethod_OnEncryption changes the current password only for a getPasswordByFile message whose password is not the empty string (an undefined password included), and then to that password. *)
Theorem X_encryption_current_password (env : Encryption.enc_env) (s : Encryption.enc_state)
    (obj : Encryption.enc_obj) :
  let s' := fst (Encryption.pluginMethod_OnEncryption env s obj) in
  Encryption.currentPassword s' = Encryption.currentPassword s
  \/ (Encryption.otype obj = "getPasswordByFile" /\ Encryption.password obj <> Some ""
      /\ Encryption.currentPassword s' = Encryption.password obj).
Proof.
  unfold Encryption.pluginMethod_OnEncryption; cbv zeta.
  destruct (String.eqb_spec (Encryption.otype obj) "generatePassword") as [Eg|Eg].
  - destruct (Encryption.loose_eq_empty (Encryption.password obj)); left; reflexivity.
  - destruct (String.eqb_spec (Encryption.otype obj) "getPasswordByFile") as [Ep|Ep].
    + destruct (Encryption.loose_eq_empty (Encryption.password obj)) eqn:El; simpl; [left; reflexivity|].
      right; split; [exact Ep|]; split; [|reflexivity].
      intro H; rewrite H in El; discriminate.
    + destruct (_ || _); left; reflexivity.
Qed.


(** X24: After asc_setLocalRestrictions, asc_getLocalRestrictions returns the value set, or the none restriction for no value, and view restriction is on unless the value is the none restriction; the host setter is called only outside the app and only when it exists. *)
Theorem X_restrictions_round_trip (restriction_none : Z) (host_setter : bool)
    (a : Restrictions.api) (value : option Z) (is_from_app : bool) :
  let '(a', effs) := Restrictions.asc_setLocalRestrictions restriction_none host_setter a value is_from_app in
  Restrictions.asc_getLocalRestrictions restriction_none a'
    = match value with Some v => v | None => restriction_none end
  /\ Restrictions.view_restricted a'
     = match value with Some v => negb (Z.eqb v restriction_none) | None => true end
  /\ effs = (if is_from_app then [] else if host_setter then [Restrictions.HostSetLocalRestrictions value] else []).
Proof.
  unfold Restrictions.asc_setLocalRestrictions, Restrictions.differs_from_none.
  destruct value as [v|]; [destruct (negb (Z.eqb v restriction_none))|];
    destruct is_from_app; simpl; repeat split; reflexivity.
Qed.

Lemma X_image_url_round_trip_witness :
  let e := DocumentUrls.mkUrlEnv "file:///C:/docs" None None "" (fun _ => false) in
  DocumentUrls.correct e = None
  /\ starts_at0 "theme" "image1.png" = false
  /\ DocumentUrls.under_themes_url e "image1.png" = false
  /\ DocumentUrls.replace20 (DocumentUrls.documentUrl e) = DocumentUrls.documentUrl e
  /\ DocumentUrls.getImageLocal e (DocumentUrls.getImageUrl e "image1.png")
     = Some (DocumentUrls.replace20 "image1.png").
Proof.
  intro e.
  assert (H1 : DocumentUrls.correct e = None) by reflexivity.
  assert (H2 : starts_at0 "theme" "image1.png" = false) by reflexivity.
  assert (H3 : DocumentUrls.under_themes_url e "image1.png" = false) by reflexivity.
  assert (H4 : DocumentUrls.replace20 (DocumentUrls.documentUrl e) = DocumentUrls.documentUrl e)
    by reflexivity.
  split; [exact H1|]; split; [exact H2|]; split; [exact H3|]; split; [exact H4|].
  exact (proj1 (X_image_url_round_trip e "image1.png" H1 H2 H3 H4)).
Defined.

Lemma X_install_plugins_too_few_groups_witness :
  (List.length [("https://plugins/a b", @nil Plugins.plugin)] < 2)%nat
  /\ Plugins.UpdateInstallPlugins false [("https://plugins/a b", @nil Plugins.plugin)] = None.
Proof.
  assert (H : (List.length [("https://plugins/a b", @nil Plugins.plugin)] < 2)%nat) by (simpl; lia).
  split; [exact H | exact (X_install_plugins_too_few_groups false _ H)].
Defined.

Lemma X_signatures_loaded_witness :
  let data := [Signatures.mkSignJson "g1" 0 "AAA" "BBB" "me" "2026-10-16";
               Signatures.mkSignJson "g2" 1 "CCC" "DDD" "you" "2026-10-17"] in
  (Z.to_nat 1 <= List.length data)%nat
  /\ List.length (fst (Signatures.DesktopOfflineAppDocumentSignatures ["g2"]
                         (Signatures.JParsed (Some 1%Z) data))) = Z.to_nat 1.
Proof.
  intro data.
  assert (H : (Z.to_nat 1 <= List.length data)%nat) by (simpl; lia).
  split; [exact H|].
  pose proof (X_signatures_loaded ["g2"] 1 data H) as P.
  destruct (Signatures.DesktopOfflineAppDocumentSignatures ["g2"] (Signatures.JParsed (Some 1%Z) data))
    as [sigs effs].
  exact (proj1 P).
Defined.

Lemma X_signatures_count_too_large_witness :
  let data := [Signatures.mkSignJson "g1" 0 "AAA" "BBB" "me" "2026-10-16"] in
  (List.length data < Z.to_nat 3)%nat
  /\ snd (Signatures.DesktopOfflineAppDocumentSignatures [] (Signatures.JParsed (Some 3%Z) data)) = [].
Proof.
  intro data.
  assert (H : (List.length data < Z.to_nat 3)%nat) by (simpl; lia).
  split; [exact H|].
  pose proof (X_signatures_count_too_large [] 3 data H) as P.
  destruct (Signatures.DesktopOfflineAppDocumentSignatures [] (Signatures.JParsed (Some 3%Z) data))
    as [sigs effs].
  exact (proj2 (proj2 P)).
Defined.

Lemma X_signatures_none_witness :
  let j := Signatures.JParsed (Some 0%Z) [Signatures.mkSignJson "g1" 0 "AAA" "BBB" "me" "2026-10-16"] in
  j <> Signatures.JParsedNull
  /\ (forall c data, j = Signatures.JParsed (Some c) data -> (c <= 0)%Z)
  /\ Signatures.DesktopOfflineAppDocumentSignatures ["g1"] j
     = ([], [Signatures.LoadImages []; Signatures.UpdateSignatures]).
Proof.
  intro j.
  assert (H1 : j <> Signatures.JParsedNull) by discriminate.
  assert (H2 : forall c data, j = Signatures.JParsed (Some c) data -> (c <= 0)%Z)
    by (intros c data E; injection E as <- _; lia).
  split; [exact H1|]; split; [exact H2|].
  exact (proj1 (X_signatures_none ["g1"] j H1 H2)).
Defined.

Lemma X_request_existing_signature_witness :
  let s := Signatures.mkLine "g1" 0 "data:image/png;base64,AAA" "me" 4 "2026-10-16" true in
  let ed := SignRequest.mkEditor false [s] false ["g1"] in
  SignRequest.restricted ed = false
  /\ SignRequest.find_sign (SignRequest.signatures ed) "g1" = Some s
  /\ SignRequest.asc_LocalRequestSign ed None "g1" None None true
     = (None, [SignRequest.ViewCertificate 4]).
Proof.
  intros s ed.
  assert (H1 : SignRequest.restricted ed = false) by reflexivity.
  assert (H2 : SignRequest.find_sign (SignRequest.signatures ed) "g1" = Some s) by reflexivity.
  split; [exact H1|]; split; [exact H2|].
  exact (proj2 (proj2 (X_request_existing_signature ed None "g1" None None true s H1 H2))).
Defined.

Lemma X_request_modified_save_question_witness :
  let ed := SignRequest.mkEditor false [] true [] in
  SignRequest.restricted ed = false
  /\ SignRequest.find_sign (SignRequest.signatures ed) "g1" = None
  /\ SignRequest.modified ed = true
  /\ SignRequest.asc_LocalRequestSign ed None "g1" None (Some 50%Z) false
     = (Some (SignRequest.mkPending "g1" (Some 100%Z) (Some 100%Z)), [SignRequest.SaveQuestion]).
Proof.
  intro ed.
  assert (H1 : SignRequest.restricted ed = false) by reflexivity.
  assert (H2 : SignRequest.find_sign (SignRequest.signatures ed) "g1" = None) by reflexivity.
  assert (H3 : SignRequest.modified ed = true) by reflexivity.
  split; [exact H1|]; split; [exact H2|]; split; [exact H3|].
  exact (proj1 (X_request_modified_save_question ed None "g1" None (Some 50%Z) false H1 H2 H3)).
Defined.

Lemma X_request_pending_unchanged_witness :
  let ed := SignRequest.mkEditor true [] true [] in
  let q := Some (SignRequest.mkPending "g0" None None) in
  (SignRequest.restricted ed = true
   \/ SignRequest.find_sign (SignRequest.signatures ed) "g1" <> None
   \/ SignRequest.modified ed = false)
  /\ fst (SignRequest.asc_LocalRequestSign ed q "g1" None None false) = q.
Proof.
  intros ed q.
  assert (H : SignRequest.restricted ed = true
              \/ SignRequest.find_sign (SignRequest.signatures ed) "g1" <> None
              \/ SignRequest.modified ed = false) by (left; reflexivity).
  split; [exact H | exact (X_request_pending_unchanged ed q "g1" None None false H)].
Defined.

Lemma X_request_default_size_witness :
  let ed := SignRequest.mkEditor false [] false ["g1"] in
  SignRequest.restricted ed = false
  /\ SignRequest.find_sign (SignRequest.signatures ed) "g1" = None
  /\ SignRequest.modified ed = false
  /\ SignRequest.asc_LocalRequestSign ed None "g1" None (Some 30%Z) false
     = (None, [SignRequest.SignatureClick "g1" (Some 100%Z) (Some 100%Z) true]).
Proof.
  intro ed.
  assert (H1 : SignRequest.restricted ed = false) by reflexivity.
  assert (H2 : SignRequest.find_sign (SignRequest.signatures ed) "g1" = None) by reflexivity.
  assert (H3 : SignRequest.modified ed = false) by reflexivity.
  split; [exact H1|]; split; [exact H2|]; split; [exact H3|].
  exact (proj1 (X_request_default_size ed None "g1" None (Some 30%Z) H1 H2 H3)).
Defined.

Lemma X_font_single_request_witness :
  let s := Fonts.mkFState [Fonts.mkFont "arial.ttf" (-1) None None] [] [] [] in
  let evs := [Fonts.FLoad 0 (Some 7); Fonts.FLoad 0 (Some 8); Fonts.FOnload 0 404 false;
              Fonts.FLoad 0 (Some 9)] in
  Fonts.flog s = [] /\ Fonts.xhrs s = []
  /\ FontsFacts.count_open 0 (Fonts.flog (Fonts.frun s evs)) <= 1.
Proof.
  intros s evs.
  assert (H1 : Fonts.flog s = []) by reflexivity.
  assert (H2 : Fonts.xhrs s = []) by reflexivity.
  split; [exact H1|]; split; [exact H2|].
  exact (proj1 (X_font_single_request s evs 0 H1 H2)).
Defined.

Lemma X_font_stream_index_witness :
  let s := Fonts.mkFState [Fonts.mkFont "arial.ttf" (-1) None None] [] [] [] in
  let evs := [Fonts.FLoad 0 (Some 7); Fonts.FOnload 0 200 true] in
  FontsFacts.streams_ok s
  /\ exists st, nth_error (Fonts.g_fonts_streams (Fonts.frun s evs)) 0 = Some st
                /\ FontsFacts.stream_font st = 0.
Proof.
  intros s evs.
  assert (H : FontsFacts.streams_ok s) by (intros f idx Hin; destruct Hin).
  split; [exact H|].
  apply (X_font_stream_index s evs H); simpl; auto.
Defined.

Lemma X_local_name_single_separator_witness :
  let p := "C:/Users/me/report.xlsx" in
  (SplitJoinFacts.count_char backslash p = 0 \/ SplitJoinFacts.count_char slash p = 0)%nat
  /\ (Z.of_nat (String.length p) <= 1000000)%Z
  /\ exists pre c, (c = backslash \/ c = slash)
       /\ p = String.append pre (String c (fst (DesktopOfflineUpdateLocalName p))).
Proof.
  intro p.
  assert (H1 : (SplitJoinFacts.count_char backslash p = 0 \/ SplitJoinFacts.count_char slash p = 0)%nat)
    by (left; reflexivity).
  assert (H2 : (Z.of_nat (String.length p) <= 1000000)%Z) by (apply Z.leb_le; reflexivity).
  split; [exact H1|]; split; [exact H2|].
  destruct (X_local_name_single_separator p H1 H2) as [(E & _ & E2)|(pre & c & Hc & E & _)].
  - discriminate E2.
  - exists pre, c; split; [exact Hc | exact E].
Defined.

Lemma X_theme_paths_null_witness :
  let e := DocumentUrls.mkUrlEnv "file:///C:/docs" None None "" (fun _ => false) in
  (DocumentUrls.isThemeUrl (Some "theme1/img.png") = true
   \/ DocumentUrls.under_themes_url e "theme1/img.png" = true)
  /\ DocumentUrls.getUrl e "theme1/img.png" = DocumentUrls.UNull.
Proof.
  intro e.
  assert (H : DocumentUrls.isThemeUrl (Some "theme1/img.png") = true
              \/ DocumentUrls.under_themes_url e "theme1/img.png" = true) by (left; reflexivity).
  split; [exact H | exact (proj2 (X_theme_paths_null e "theme1/img.png" H))].
Defined.

Lemma X_drop_inserts_first_image_witness :
  let d := DragDrop.mkDrop ["notes.txt"; "pic.png"; "other.png"]
             (fun f => negb (String.eqb f "notes.txt")) (fun f => Some "image1.png") "" ""
             (DocumentUrls.mkUrlEnv "file:///C:/docs" None None "" (fun _ => false)) in
  DragDropFacts.first_image d (DragDrop.GetDropFiles d) = Some "pic.png"
  /\ DragDrop.LocalFileGetImageUrl d "pic.png" = Some "image1.png"
  /\ "image1.png" <> ""
  /\ DragDrop.ondrop d
     = [DragDrop.PreventDefault; DragDrop.EndInlineDropTarget;
        DragDrop.AddImageUrl [Some "file:///C:/docs/media/image1.png"]].
Proof.
  intro d.
  assert (H1 : DragDropFacts.first_image d (DragDrop.GetDropFiles d) = Some "pic.png") by reflexivity.
  assert (H2 : DragDrop.LocalFileGetImageUrl d "pic.png" = Some "image1.png") by reflexivity.
  assert (H3 : "image1.png" <> "") by discriminate.
  split; [exact H1|]; split; [exact H2|]; split; [exact H3|].
  exact (X_drop_inserts_first_image d "pic.png" "image1.png" H1 H2 H3).
Defined.

Lemma X_drop_falls_back_to_paste_witness :
  let d := DragDrop.mkDrop ["pic.png"] (fun _ => true) (fun _ => None) "" "hello"
             (DocumentUrls.mkUrlEnv "file:///C:/docs" None None "" (fun _ => false)) in
  (forall f, DragDropFacts.first_image d (DragDrop.GetDropFiles d) = Some f ->
     DragDrop.LocalFileGetImageUrl d f = None \/ DragDrop.LocalFileGetImageUrl d f = Some "")
  /\ DragDrop.ondrop d
     = [DragDrop.PreventDefault; DragDrop.EndInlineDropTarget; DragDrop.PasteText "hello"].
Proof.
  intro d.
  assert (H : forall f, DragDropFacts.first_image d (DragDrop.GetDropFiles d) = Some f ->
                DragDrop.LocalFileGetImageUrl d f = None \/ DragDrop.LocalFileGetImageUrl d f = Some "")
    by (intros f _; left; reflexivity).
  split; [exact H | exact (X_drop_falls_back_to_paste d H)].
Defined.

Lemma X_path_watch_success_keeps_barrier_witness :
  let s := PathWatcher.run (fun _ _ _ => JVal true 1) "AscCommon.sdk" 0 default_maxWait 3
             (PathWatcher.waitForPath (fun _ _ _ => JVal true 1) (JVal true 0) "AscCommon.sdk" 0
                barrier_init) in
  PathWatcherBarFacts.degraded s = false
  /\ PathWatcher.bar s
     = mkBarrier (bstatus barrier_init) (bready barrier_init)
         (blog barrier_init ++ [PathWatcher.msg_starting "AscCommon.sdk"]).
Proof.
  intro s.
  assert (H : PathWatcherBarFacts.degraded s = false) by reflexivity.
  split; [exact H|].
  exact (X_path_watch_success_keeps_barrier (fun _ _ _ => JVal true 1) (JVal true 0) "AscCommon.sdk"
           0 default_maxWait barrier_init 3 H).
Defined.
